(** * Valetudo platform adapter (matterbridge plugin): model and properties

    Source modelled: [dist/platforms/valetudo/platform.js], class
    [ValetudoPlatform], the build that the plugin entry point imports
    ([index.ts] loads [./platforms/valetudo/platform.js]).  The sibling
    [src/platforms/valetudo/platform.ts] carries the type declarations used
    here ([PluginConfig], [CleanMode], [RunMode], the [Logger] field); three of
    its statements (the error-topic test, the watertank test and the body of
    the segments handler) are not TypeScript, so the executable text is the
    JavaScript one.

    Layout:
    - [JS]       : the ECMAScript built-ins the adapter calls ([Number],
                   [Number.isNaN], [String.prototype.endsWith], [JSON.parse],
                   [JSON.stringify], [Object.entries], [Array.isArray]);
    - [Valetudo] : the adapter itself, as a state-and-exception monad over
                   the instance fields with a trace of outward effects;
    - the properties, one per numbered claim, followed by further
      properties of the handlers, of sequences of events and of the payload
      conversions. *)

From Stdlib Require Import List NArith ZArith Bool String Ascii Lia.
From Stdlib Require Import DecimalString DecimalPos DecimalN Permutation Sorted.
Import ListNotations.

Set Warnings "-register-all".

Local Open Scope N_scope.

(* ------------------------------------------------------------------ *)
(** * ECMAScript built-ins *)

Module JS.

(** A JavaScript string is a sequence of UTF-16 code units. *)
Definition jsstring := list N.

(** Source literals are ASCII; [js "abc"] is the string of their code units. *)
Definition js (s : string) : jsstring :=
  List.map N_of_ascii (list_ascii_of_string s).

Definition jsstring_dec : forall a b : jsstring, {a = b} + {a <> b} :=
  list_eq_dec N.eq_dec.

(** [a === b] on strings. *)
Definition streq (a b : jsstring) : bool :=
  if jsstring_dec a b then true else false.

Fixpoint starts_with (p s : jsstring) : bool :=
  match p, s with
  | [], _ => true
  | _ :: _, [] => false
  | a :: p', b :: s' => (a =? b) && starts_with p' s'
  end.

(** [s.endsWith(suffix)]. *)
Definition endsWith (s suffix : jsstring) : bool :=
  starts_with (rev suffix) (rev s).

(** ** Numbers

    A Number value is kept as the mathematical value its source text
    denotes: [Dec neg m e] stands for [(-1)^neg * m * 10^e].  The final
    rounding of that value to binary64 is left out of the model; whether
    the result is NaN never depends on it.  The value kept is the one the
    engine computes for every integer of magnitude at most 2^53; beyond
    that range the engine rounds to the nearest binary64, overflows to
    Infinity or underflows to zero, which this type does not follow. *)
Inductive JsNumber :=
| NaN
| Inf (neg : bool)
| Dec (neg : bool) (m : N) (e : Z).

Definition isNaN (x : JsNumber) : bool :=
  match x with NaN => true | _ => false end.

Definition zero : JsNumber := Dec false 0 0.

(** StrWhiteSpaceChar: WhiteSpace and LineTerminator code points. *)
Definition isStrWhiteSpaceChar (c : N) : bool :=
  ((9 <=? c) && (c <=? 13)) || (c =? 32) || (c =? 160) || (c =? 5760)
  || ((8192 <=? c) && (c <=? 8202)) || (c =? 8232) || (c =? 8233)
  || (c =? 8239) || (c =? 8287) || (c =? 12288) || (c =? 65279).

Fixpoint trim_start (s : jsstring) : jsstring :=
  match s with
  | c :: r => if isStrWhiteSpaceChar c then trim_start r else s
  | [] => []
  end.

Definition trim (s : jsstring) : jsstring :=
  rev (trim_start (rev (trim_start s))).

Definition digit_val (radix c : N) : option N :=
  let v :=
    if (48 <=? c) && (c <=? 57) then Some (c - 48)
    else if (97 <=? c) && (c <=? 102) then Some (c - 87)
    else if (65 <=? c) && (c <=? 70) then Some (c - 55)
    else None in
  match v with
  | Some d => if d <? radix then Some d else None
  | None => None
  end.

(** Longest run of radix digits at the head of [s]: its value continued
    from [acc], the number of digits read, and what follows. *)
Fixpoint read_digits (radix : N) (s : jsstring) (acc : N) (n : nat)
  : N * nat * jsstring :=
  match s with
  | c :: r =>
      match digit_val radix c with
      | Some d => read_digits radix r (acc * radix + d) (S n)
      | None => (acc, n, s)
      end
  | [] => (acc, n, [])
  end.

(** ExponentPart, optional: the exponent and what follows, or [None] when an
    exponent indicator is not followed by a signed integer. *)
Definition read_exponent (s : jsstring) : option (Z * jsstring) :=
  match s with
  | c :: r =>
      if (c =? 101) || (c =? 69) then
        let '(neg, r1) :=
          match r with
          | 43 :: r' => (false, r')
          | 45 :: r' => (true, r')
          | _ => (false, r)
          end in
        let '(v, n, rest) := read_digits 10 r1 0 0%nat in
        match n with
        | O => None
        | _ => Some (if neg then (- Z.of_N v)%Z else Z.of_N v, rest)
        end
      else Some (0%Z, s)
  | [] => Some (0%Z, [])
  end.

(** StrUnsignedDecimalLiteral, which must span the whole of [s]. *)
Definition unsigned_decimal (neg : bool) (s : jsstring) : JsNumber :=
  if jsstring_dec s (js "Infinity") then Inf neg
  else
    let '(ip, ni, r1) := read_digits 10 s 0 0%nat in
    let '(m, nf, r2) :=
      match r1 with
      | 46 :: r' => read_digits 10 r' ip 0%nat
      | _ => (ip, 0%nat, r1)
      end in
    match ni, nf with
    | O, O => NaN
    | _, _ =>
        match read_exponent r2 with
        | Some (ex, []) => Dec neg m (ex - Z.of_nat nf)
        | _ => NaN
        end
    end.

(** NonDecimalIntegerLiteral after its two-character prefix. *)
Definition radix_literal (radix : N) (s : jsstring) : JsNumber :=
  match read_digits radix s 0 0%nat with
  | (_, O, _) => NaN
  | (v, _, []) => Dec false v 0
  | _ => NaN
  end.

(** StringToNumber. *)
Definition StringToNumber (s : jsstring) : JsNumber :=
  match trim s with
  | [] => zero
  | 48 :: c :: r =>
      if (c =? 120) || (c =? 88) then radix_literal 16 r
      else if (c =? 111) || (c =? 79) then radix_literal 8 r
      else if (c =? 98) || (c =? 66) then radix_literal 2 r
      else unsigned_decimal false (48 :: c :: r)
  | 43 :: r => unsigned_decimal false r
  | 45 :: r => unsigned_decimal true r
  | t => unsigned_decimal false t
  end.

(** [Number(value)] applied to a string. *)
Definition Number (s : jsstring) : JsNumber := StringToNumber s.

Definition N_to_jsstring (n : N) : jsstring :=
  js (NilZero.string_of_uint (N.to_uint n)).

Fixpoint strip_zeros (rev_digits : jsstring) (dropped : nat) : jsstring * nat :=
  match rev_digits with
  | 48 :: r => strip_zeros r (S dropped)
  | _ => (rev_digits, dropped)
  end.

(** Number::toString, radix 10, on the decimal the model keeps. *)
Definition Number_toString (x : JsNumber) : jsstring :=
  match x with
  | NaN => js "NaN"
  | Inf neg => (if neg then js "-" else []) ++ js "Infinity"
  | Dec _ 0 _ => js "0"
  | Dec neg m e =>
      let '(rs, tz) := strip_zeros (rev (N_to_jsstring m)) 0%nat in
      let s := rev rs in
      let k := Z.of_nat (List.length s) in
      let n := (k + e + Z.of_nat tz)%Z in
      let body :=
        if ((k <=? n) && (n <=? 21))%Z then
          s ++ repeat 48 (Z.to_nat (n - k))
        else if ((0 <? n) && (n <=? 21))%Z then
          firstn (Z.to_nat n) s ++ js "." ++ skipn (Z.to_nat n) s
        else if ((-6 <? n) && (n <=? 0))%Z then
          js "0." ++ repeat 48 (Z.to_nat (- n)) ++ s
        else
          let ex := (if (n - 1 <? 0)%Z then js "-" else js "+")
                    ++ N_to_jsstring (Z.to_N (Z.abs (n - 1))) in
          match s with
          | [d] => [d] ++ js "e" ++ ex
          | d :: ds => [d] ++ js "." ++ ds ++ js "e" ++ ex
          | [] => []
          end in
      (if neg then js "-" else []) ++ body
  end.

(** ** Errors and completions *)

Inductive ErrorKind := SyntaxError | TypeError.

Record JsError := mkError { err_kind : ErrorKind; err_message : jsstring }.

(** [`${e}`] for an Error object: its name, a colon, its message. *)
Definition Error_toString (e : JsError) : jsstring :=
  (match err_kind e with
   | SyntaxError => js "SyntaxError"
   | TypeError => js "TypeError"
   end) ++ js ": " ++ err_message e.

Inductive Completion (A : Type) :=
| Normal (a : A)
| Throw (e : JsError).
Arguments Normal {A} a.
Arguments Throw {A} e.

(** ** JSON values

    What [JSON.parse] can return.  An object lists its own properties in
    creation order, one entry per key. *)
Inductive Json :=
| JNull
| JBool (b : bool)
| JNumber (n : JsNumber)
| JString (s : jsstring)
| JArray (items : list Json)
| JObject (props : list (jsstring * Json)).

(** CreateDataProperty on the property list: an existing key keeps its
    place and takes the new value, a new key goes last. *)
Fixpoint obj_set {A} (props : list (jsstring * A)) (k : jsstring) (v : A)
  : list (jsstring * A) :=
  match props with
  | [] => [(k, v)]
  | (k', v') :: r =>
      if jsstring_dec k' k then (k', v) :: r else (k', v') :: obj_set r k v
  end.

(** A canonical numeric string below 2^32 - 1 is an array index. *)
Definition array_index (k : jsstring) : option N :=
  match k with
  | [] => None
  | [48] => Some 0
  | 48 :: _ => None
  | _ =>
      match read_digits 10 k 0 0%nat with
      | (v, _, []) => if v <=? 4294967294 then Some v else None
      | _ => None
      end
  end.

Fixpoint insert_by_index {A} (i : N) (x : A) (l : list (N * A)) : list (N * A) :=
  match l with
  | [] => [(i, x)]
  | (j, y) :: r =>
      if i <? j then (i, x) :: l else (j, y) :: insert_by_index i x r
  end.

Fixpoint index_props {A} (props : list (jsstring * A)) : list (N * (jsstring * A)) :=
  match props with
  | [] => []
  | (k, v) :: r =>
      match array_index k with
      | Some i => insert_by_index i (k, v) (index_props r)
      | None => index_props r
      end
  end.

(** OrdinaryOwnPropertyKeys order: array indices ascending, then the other
    keys in creation order. *)
Definition own_entries {A} (props : list (jsstring * A)) : list (jsstring * A) :=
  List.map snd (index_props props)
  ++ filter (fun kv => match array_index (fst kv) with
                       | Some _ => false
                       | None => true
                       end) props.

Fixpoint indexed {A} (i : N) (l : list A) : list (jsstring * A) :=
  match l with
  | [] => []
  | x :: r => (N_to_jsstring i, x) :: indexed (N.succ i) r
  end.

(** [Object.entries(v)]. *)
Definition Object_entries (v : Json) : Completion (list (jsstring * Json)) :=
  match v with
  | JNull =>
      Throw (mkError TypeError (js "Cannot convert undefined or null to object"))
  | JBool _ | JNumber _ => Normal []
  | JString s => Normal (indexed 0 (List.map (fun c => JString [c]) s))
  | JArray items => Normal (indexed 0 items)
  | JObject props => Normal (own_entries props)
  end.

(** ** [JSON.parse] *)

Fixpoint skip_ws (s : jsstring) : jsstring :=
  match s with
  | c :: r =>
      if (c =? 32) || (c =? 9) || (c =? 10) || (c =? 13) then skip_ws r else s
  | [] => []
  end.

Definition hex4 (a b c d : N) : option N :=
  match digit_val 16 a, digit_val 16 b, digit_val 16 c, digit_val 16 d with
  | Some x, Some y, Some z, Some w => Some (((x * 16 + y) * 16 + z) * 16 + w)
  | _, _, _, _ => None
  end.

(** JSONString after its opening quote: the characters up to the closing
    quote (collected in reverse in [acc]) and what follows. *)
Fixpoint read_string (s : jsstring) (acc : jsstring) : option (jsstring * jsstring) :=
  match s with
  | [] => None
  | 34 :: r => Some (rev acc, r)
  | 92 :: r =>
      match r with
      | 34 :: r' => read_string r' (34 :: acc)
      | 92 :: r' => read_string r' (92 :: acc)
      | 47 :: r' => read_string r' (47 :: acc)
      | 98 :: r' => read_string r' (8 :: acc)
      | 102 :: r' => read_string r' (12 :: acc)
      | 110 :: r' => read_string r' (10 :: acc)
      | 114 :: r' => read_string r' (13 :: acc)
      | 116 :: r' => read_string r' (9 :: acc)
      | 117 :: a :: b :: c :: d :: r' =>
          match hex4 a b c d with
          | Some u => read_string r' (u :: acc)
          | None => None
          end
      | _ => None
      end
  | c :: r => if c <? 32 then None else read_string r (c :: acc)
  end.

(** JSONNumber: minus, integer part without leading zeros, fraction with at
    least one digit, exponent. *)
Definition read_number (s : jsstring) : option (JsNumber * jsstring) :=
  let '(neg, r0) := match s with 45 :: r => (true, r) | _ => (false, s) end in
  let int_part :=
    match r0 with
    | 48 :: r => Some (0, r)
    | _ => match read_digits 10 r0 0 0%nat with
           | (_, O, _) => None
           | (v, _, r) => Some (v, r)
           end
    end in
  match int_part with
  | None => None
  | Some (ip, r1) =>
      let frac :=
        match r1 with
        | 46 :: r =>
            match read_digits 10 r ip 0%nat with
            | (_, O, _) => None
            | (m, nf, r2) => Some (m, nf, r2)
            end
        | _ => Some (ip, 0%nat, r1)
        end in
      match frac with
      | None => None
      | Some (m, nf, r2) =>
          match read_exponent r2 with
          | Some (ex, r3) => Some (Dec neg m (ex - Z.of_nat nf), r3)
          | None => None
          end
      end
  end.

Definition read_literal (word : jsstring) (v : Json) (s : jsstring)
  : option (Json * jsstring) :=
  if starts_with word s then Some (v, skipn (List.length word) s) else None.

(** JSONValue at the head of [s] (after white space), with what follows.
    [fuel] bounds the depth of the calls; every second call consumes a
    character, so twice the length of the text is never exhausted. *)
Fixpoint parse_value (fuel : nat) (s : jsstring) : option (Json * jsstring) :=
  match fuel with
  | O => None
  | S f =>
      match skip_ws s with
      | [] => None
      | 123 :: r =>
          match skip_ws r with
          | 125 :: r' => Some (JObject [], r')
          | _ => parse_members f r []
          end
      | 91 :: r =>
          match skip_ws r with
          | 93 :: r' => Some (JArray [], r')
          | _ => parse_elements f r []
          end
      | 34 :: r =>
          match read_string r [] with
          | Some (str, r') => Some (JString str, r')
          | None => None
          end
      | 116 :: r => read_literal (js "true") (JBool true) (116 :: r)
      | 102 :: r => read_literal (js "false") (JBool false) (102 :: r)
      | 110 :: r => read_literal (js "null") JNull (110 :: r)
      | t =>
          match read_number t with
          | Some (n, r') => Some (JNumber n, r')
          | None => None
          end
      end
  end
with parse_elements (fuel : nat) (s : jsstring) (acc : list Json)
  : option (Json * jsstring) :=
  match fuel with
  | O => None
  | S f =>
      match parse_value f s with
      | Some (v, r) =>
          match skip_ws r with
          | 44 :: r' => parse_elements f r' (v :: acc)
          | 93 :: r' => Some (JArray (rev (v :: acc)), r')
          | _ => None
          end
      | None => None
      end
  end
with parse_members (fuel : nat) (s : jsstring) (acc : list (jsstring * Json))
  : option (Json * jsstring) :=
  match fuel with
  | O => None
  | S f =>
      match skip_ws s with
      | 34 :: r =>
          match read_string r [] with
          | Some (k, r1) =>
              match skip_ws r1 with
              | 58 :: r2 =>
                  match parse_value f r2 with
                  | Some (v, r3) =>
                      match skip_ws r3 with
                      | 44 :: r4 => parse_members f r4 (obj_set acc k v)
                      | 125 :: r4 => Some (JObject (obj_set acc k v), r4)
                      | _ => None
                      end
                  | None => None
                  end
              | _ => None
              end
          | None => None
          end
      | _ => None
      end
  end.

(** [JSON.parse(text)]: one value spanning the text, else a SyntaxError. *)
Definition JSON_parse (text : jsstring) : Completion Json :=
  match parse_value (2 * List.length text + 2) text with
  | Some (v, r) =>
      match skip_ws r with
      | [] => Normal v
      | _ => Throw (mkError SyntaxError (js "Unexpected non-whitespace character after JSON"))
      end
  | None => Throw (mkError SyntaxError (js "Unexpected token in JSON"))
  end.

(** ** [JSON.stringify] *)

Definition hex_digit (d : N) : N := if d <? 10 then 48 + d else 87 + d.

Definition unicode_escape (c : N) : jsstring :=
  js "\u" ++ [hex_digit (c / 4096 mod 16); hex_digit (c / 256 mod 16);
              hex_digit (c / 16 mod 16); hex_digit (c mod 16)].

Definition is_lead (c : N) : bool := (55296 <=? c) && (c <=? 56319).
Definition is_trail (c : N) : bool := (56320 <=? c) && (c <=? 57343).

Fixpoint quote_units (s : jsstring) : jsstring :=
  match s with
  | [] => []
  | c :: r =>
      if c =? 8 then js "\b" ++ quote_units r
      else if c =? 9 then js "\t" ++ quote_units r
      else if c =? 10 then js "\n" ++ quote_units r
      else if c =? 12 then js "\f" ++ quote_units r
      else if c =? 13 then js "\r" ++ quote_units r
      else if c =? 34 then [92; 34] ++ quote_units r
      else if c =? 92 then [92; 92] ++ quote_units r
      else if c <? 32 then unicode_escape c ++ quote_units r
      else if is_lead c then
        match r with
        | d :: r' =>
            if is_trail d then c :: d :: quote_units r'
            else unicode_escape c ++ quote_units r
        | [] => unicode_escape c
        end
      else if is_trail c then unicode_escape c ++ quote_units r
      else c :: quote_units r
  end.

(** QuoteJSONString. *)
Definition quote (s : jsstring) : jsstring := [34] ++ quote_units s ++ [34].

Fixpoint join (sep : jsstring) (parts : list jsstring) : jsstring :=
  match parts with
  | [] => []
  | [x] => x
  | x :: r => x ++ sep ++ join sep r
  end.

(** [JSON.stringify(v)] without replacer or indentation. *)
Fixpoint JSON_stringify (v : Json) : jsstring :=
  match v with
  | JNull => js "null"
  | JBool true => js "true"
  | JBool false => js "false"
  | JNumber (Dec neg m e) => Number_toString (Dec neg m e)
  | JNumber _ => js "null"
  | JString s => quote s
  | JArray items => js "[" ++ join (js ",") (List.map JSON_stringify items) ++ js "]"
  | JObject props =>
      js "{"
      ++ join (js ",")
           (List.map (fun kv => quote (fst kv) ++ js ":" ++ snd kv)
              (own_entries (List.map (fun kv => (fst kv, JSON_stringify (snd kv))) props)))
      ++ js "}"
  end.

(** A value an untyped caller can pass where an array is expected:
    [undefined], or data ([null], primitives, arrays, objects). *)
Inductive Value :=
| Undefined
| Data (v : Json).

(** [Array.isArray(v)]. *)
Definition Array_isArray (v : Json) : bool :=
  match v with JArray _ => true | _ => false end.

(** [v.length] of an array. *)
Definition Array_length (v : Json) : nat :=
  match v with JArray items => List.length items | _ => 0%nat end.

End JS.

(* ------------------------------------------------------------------ *)
(** * The adapter *)

Module Cfg.
Import JS.

Inductive CleanMode := Vacuum | Mop.

(** [PluginConfig]; an optional field that is absent (or null) is [None]. *)
Record Mqtt := mkMqtt {
  url : jsstring;
  username : option jsstring;
  password : option jsstring;
  topicPrefix : jsstring;
  identifier : jsstring
}.

Record Rvc := mkRvc {
  serverMode : option bool;
  defaultCleanMode : option CleanMode;
  mapServiceAreasFromSegments : option bool;
  fanPresetForVacuum : option jsstring;
  operationModePresetVacuum : option jsstring;
  fanPresetForMop : option jsstring;
  waterPresetForMop : option jsstring;
  operationModePresetMop : option jsstring
}.

Record PluginConfig := mkConfig {
  name : option jsstring;
  mqtt : Mqtt;
  rvc : option Rvc
}.

(** [cfg?.rvc?.field]. *)
Definition rvc_field {A} (field : Rvc -> option A) (c : PluginConfig) : option A :=
  match rvc c with
  | Some r => field r
  | None => None
  end.

End Cfg.

Module Valetudo.
Import JS.
Export Cfg.

Inductive RunMode := Idle | Cleaning.

Inductive OperationalState := Charging | Running | Docked | Paused | Error.

Record Area := mkArea { id : jsstring; name : Json }.

(** Calls on the device object ([this.rvc]). *)
Inductive DeviceCall :=
| updateBattery (pct : JsNumber)
| updateOperationalState (s : OperationalState)
| updateRunMode (m : RunMode)
| updateCleanMode (m : CleanMode)
| updateServiceAreas (areas : list Area).

Inductive LogLevel := Info | Warn.

Inductive EndpointMode := server | matter.

(** What the adapter does to its collaborators, in order of occurrence.
    The [log] field is declared a [Logger] and handed in by the host, so a
    call through [this.log?.warn?.(...)] or [this.log?.info?.(...)] reaches
    the sink and is recorded as a [Log] entry. *)
Inductive Effect :=
| NewDevice (nodeLabel : jsstring) (mode : EndpointMode)
| Connect (url : jsstring) (username password : option jsstring)
| Subscribe (topic : jsstring)
| Publish (topic value : jsstring)
| Device (c : DeviceCall)
| Log (level : LogLevel) (message : jsstring).

(** The mutable and configuration fields of a [ValetudoPlatform]. *)
Record Platform := mkPlatform {
  cfg : PluginConfig;
  base : jsstring;
  watertank : bool;
  segments : Json
}.

Definition set_watertank (b : bool) (p : Platform) : Platform :=
  mkPlatform (cfg p) (base p) b (segments p).

Definition set_segments (v : Json) (p : Platform) : Platform :=
  mkPlatform (cfg p) (base p) (watertank p) v.

(** ** Computations: instance state, completion, effects emitted *)

Definition M (A : Type) : Type := Platform -> Completion A * Platform * list Effect.

Definition ret {A} (a : A) : M A := fun p => (Normal a, p, []).

Definition bind {A B} (m : M A) (k : A -> M B) : M B :=
  fun p =>
    match m p with
    | (Normal a, p1, t1) => let '(r, p2, t2) := k a p1 in (r, p2, t1 ++ t2)
    | (Throw e, p1, t1) => (Throw e, p1, t1)
    end.

Notation "x <- m ;; k" := (bind m (fun x => k))
  (at level 61, m at next level, right associativity).
Notation "m ;; k" := (bind m (fun _ => k))
  (at level 61, right associativity).

(** [try { body } catch (e) { handler }]: what [body] did before throwing
    stays done. *)
Definition try_catch {A} (body : M A) (handler : JsError -> M A) : M A :=
  fun p =>
    match body p with
    | (Throw e, p1, t1) => let '(r, p2, t2) := handler e p1 in (r, p2, t1 ++ t2)
    | done => done
    end.

Definition lift {A} (c : Completion A) : M A := fun p => (c, p, []).
Definition this : M Platform := fun p => (Normal p, p, []).
Definition modify (f : Platform -> Platform) : M unit := fun p => (Normal tt, f p, []).
Definition emit (e : Effect) : M unit := fun p => (Normal tt, p, [e]).

(** [a ?? b]. *)
Definition nullish {A} (a : option A) (b : A) : A :=
  match a with Some x => x | None => b end.

(** A preset read from the configuration, as the value handed on. *)
Definition preset_value (o : option jsstring) : Json :=
  match o with Some s => JString s | None => JNull end.

(** ToBoolean of a string, and of a string that may be null or undefined. *)
Definition truthy (s : jsstring) : bool :=
  match s with [] => false | _ :: _ => true end.

Definition truthy_opt (o : option jsstring) : bool :=
  match o with Some s => truthy s | None => false end.

(** ** Methods of [ValetudoPlatform] *)

Definition sub (suffix : jsstring) : M unit :=
  p <- this ;; emit (Subscribe (base p ++ js "/" ++ suffix)).

Definition publish (suffix : jsstring) (payload : Json) : M unit :=
  let value :=
    match payload with
    | JString s => s
    | _ => JSON_stringify payload
    end in
  p <- this ;; emit (Publish (base p ++ js "/" ++ suffix) value).

Definition onMqttConnect : M unit :=
  sub (js "BatteryStateAttribute/level") ;;
  sub (js "BatteryStateAttribute/status") ;;
  sub (js "DockStatusStateAttribute/status") ;;
  sub (js "StatusStateAttribute/error") ;;
  sub (js "AttachmentStateAttribute/watertank") ;;
  sub (js "FanSpeedControlCapability/preset") ;;
  sub (js "WaterUsageControlCapability/preset") ;;
  sub (js "MapData/segments").

Definition onMqttMessage (topic msg : jsstring) : M unit :=
  if endsWith topic (js "BatteryStateAttribute/level") then
    let pct := Number msg in
    if negb (isNaN pct) then emit (Device (updateBattery pct)) else ret tt
  else if endsWith topic (js "BatteryStateAttribute/status") then
    if streq msg (js "charging") then emit (Device (updateOperationalState Charging))
    else ret tt
  else if endsWith topic (js "DockStatusStateAttribute/status") then
    if streq msg (js "cleaning") then emit (Device (updateOperationalState Running))
    else if streq msg (js "idle") then emit (Device (updateOperationalState Docked))
    else if streq msg (js "pause") then emit (Device (updateOperationalState Paused))
    else if streq msg (js "error") then emit (Device (updateOperationalState Error))
    else ret tt
  else if endsWith topic (js "StatusStateAttribute/error") then
    if truthy msg && negb (streq msg (js "{}")) && negb (streq msg (js "null"))
    then emit (Device (updateOperationalState Error))
    else ret tt
  else if endsWith topic (js "AttachmentStateAttribute/watertank") then
    modify (set_watertank (streq msg (js "true") || streq msg (js "1")))
  else if endsWith topic (js "FanSpeedControlCapability/preset") then
    ret tt
  else if endsWith topic (js "WaterUsageControlCapability/preset") then
    ret tt
  else if endsWith topic (js "MapData/segments") then
    try_catch
      (v <- lift (JSON_parse msg) ;;
       modify (set_segments v) ;;
       p <- this ;;
       if negb (match rvc_field mapServiceAreasFromSegments (cfg p) with
                | Some false => true
                | _ => false
                end)
       then
         entries <- lift (Object_entries (segments p)) ;;
         let areas := List.map (fun kv => mkArea (fst kv) (snd kv)) entries in
         emit (Device (updateServiceAreas areas))
       else ret tt)
      (fun e => emit (Log Warn (js "Invalid segments JSON: " ++ Error_toString e)))
  else ret tt.

Definition applyCleanMode (mode : CleanMode) : M unit :=
  p <- this ;;
  let fanVac := nullish (rvc_field fanPresetForVacuum (cfg p)) (js "standard") in
  let opVac := rvc_field operationModePresetVacuum (cfg p) in
  let fanMop := rvc_field fanPresetForMop (cfg p) in
  let waterMop := nullish (rvc_field waterPresetForMop (cfg p)) (js "medium") in
  let opMop := rvc_field operationModePresetMop (cfg p) in
  match mode with
  | Vacuum =>
      (if truthy_opt opVac
       then publish (js "OperationModeControlCapability/preset/set") (preset_value opVac)
       else ret tt) ;;
      (if truthy fanVac
       then publish (js "FanSpeedControlCapability/preset/set") (JString fanVac)
       else ret tt) ;;
      publish (js "WaterUsageControlCapability/preset/set") (JString (js "off"))
  | Mop =>
      if negb (watertank p) then
        emit (Log Info (js "Mop selected but watertank is not attached; ignoring"))
      else
        (if truthy_opt opMop
         then publish (js "OperationModeControlCapability/preset/set") (preset_value opMop)
         else ret tt) ;;
        (if truthy_opt fanMop
         then publish (js "FanSpeedControlCapability/preset/set") (preset_value fanMop)
         else ret tt) ;;
        (if truthy waterMop
         then publish (js "WaterUsageControlCapability/preset/set") (JString waterMop)
         else ret tt)
  end.

Definition cleanServiceAreas (areaIds : Value) : M unit :=
  match areaIds with
  | Undefined => ret tt
  | Data ids =>
      if negb (Array_isArray ids) || negb (0 <? Array_length ids)%nat then ret tt
      else
        publish (js "MapSegmentationCapability/clean/set")
                (JObject [(js "segment_ids", ids)]) ;;
        emit (Device (updateRunMode Cleaning))
  end.

(** The callbacks the constructor registers on the device. *)
Definition onRunModeChange (target : RunMode) : M unit :=
  let op := match target with Cleaning => js "START" | _ => js "STOP" end in
  publish (js "BasicControlCapability/operation/set") (JString op).

Definition onPause : M unit :=
  publish (js "BasicControlCapability/operation/set") (JString (js "PAUSE")).
Definition onResume : M unit :=
  publish (js "BasicControlCapability/operation/set") (JString (js "START")).
Definition onDock : M unit :=
  publish (js "BasicControlCapability/operation/set") (JString (js "HOME")).
Definition onCleanModeChange (mode : CleanMode) : M unit := applyCleanMode mode.

(** [new ValetudoPlatform(mb, log, config)]: the fresh instance and what
    its construction does.  The callbacks it registers are the definitions
    above. *)
Definition constructor (config : PluginConfig) : Platform * list Effect :=
  let deviceName :=
    match Cfg.name config with
    | Some (c :: s) => c :: s
    | _ => js "Valetudo RVC"
    end in
  let serverMode := nullish (rvc_field serverMode config) true in
  let defaultMode := nullish (rvc_field defaultCleanMode config) Vacuum in
  (mkPlatform config
     (topicPrefix (mqtt config) ++ js "/" ++ identifier (mqtt config))
     false (JObject []),
   [NewDevice deviceName (if serverMode then server else matter);
    Connect (url (mqtt config)) (username (mqtt config)) (password (mqtt config));
    Device (updateCleanMode defaultMode);
    Device (updateRunMode Idle)]).

(** The plugin entry point ([index.ts]): [initializePlugin(mb, log, config)]
    returns a new platform. *)
Definition initializePlugin (config : PluginConfig) : Platform * list Effect :=
  constructor config.

(** ** Events

    What the constructor wires up: the broker client's [connect] and
    [message] events, the five command callbacks of the device, and the
    public method [cleanServiceAreas]. *)
Inductive Event :=
| MqttConnect
| MqttMessage (topic msg : jsstring)
| RunModeChange (target : RunMode)
| Pause
| Resume
| Dock
| CleanModeChange (mode : CleanMode)
| CleanServiceAreas (areaIds : Value).

Definition handle (ev : Event) : M unit :=
  match ev with
  | MqttConnect => onMqttConnect
  | MqttMessage topic msg => onMqttMessage topic msg
  | RunModeChange target => onRunModeChange target
  | Pause => onPause
  | Resume => onResume
  | Dock => onDock
  | CleanModeChange mode => onCleanModeChange mode
  | CleanServiceAreas areaIds => cleanServiceAreas areaIds
  end.

(** Events are handled one after the other, each to completion, on the
    fields the previous one left; a handler's completion stays with its
    caller. *)
Fixpoint run (evs : list Event) (p : Platform) : Platform * list Effect :=
  match evs with
  | [] => (p, [])
  | ev :: rest =>
      let '(_, p1, t1) := handle ev p in
      let '(p2, t2) := run rest p1 in
      (p2, t1 ++ t2)
  end.

End Valetudo.

(* ------------------------------------------------------------------ *)
(** * Vocabulary of the properties *)

Import JS Valetudo.

(** JSON text written with ['] standing for the double quote. *)
Definition json_text (s : string) : jsstring :=
  List.map (fun c => if c =? 39 then 34 else c) (js s).

(** The full topic of a suffix on this instance. *)
Definition topic_of (p : Platform) (suffix : jsstring) : jsstring :=
  base p ++ js "/" ++ suffix.

(** The one message a preset gives rise to when it is present, that is a
    non-empty string; no message otherwise. *)
Definition preset (p : Platform) (suffix : jsstring) (value : option jsstring)
  : list Effect :=
  match value with
  | Some (c :: s) => [Publish (topic_of p suffix) (c :: s)]
  | _ => []
  end.

(** The value of a preset that is present, as a list of at most one. *)
Definition present (value : option jsstring) : list jsstring :=
  match value with
  | Some (c :: s) => [c :: s]
  | _ => []
  end.

(** The values published on a suffix, in order. *)
Definition published_on (p : Platform) (suffix : jsstring) (tr : list Effect)
  : list jsstring :=
  flat_map (fun e =>
              match e with
              | Publish t v => if jsstring_dec t (topic_of p suffix) then [v] else []
              | _ => []
              end) tr.

(** All messages published, on any topic. *)
Definition publications (tr : list Effect) : list Effect :=
  filter (fun e => match e with Publish _ _ => true | _ => false end) tr.

(** The calls made on the device. *)
Definition device_calls (tr : list Effect) : list DeviceCall :=
  flat_map (fun e => match e with Device c => [c] | _ => [] end) tr.

(** Area derivation is on unless the option is exactly [false]. *)
Definition derives_areas (c : PluginConfig) : bool :=
  match rvc_field mapServiceAreasFromSegments c with
  | Some false => false
  | _ => true
  end.

Definition areas_of (entries : list (jsstring * Json)) : list Area :=
  List.map (fun kv => mkArea (fst kv) (snd kv)) entries.

Definition is_object (v : Json) : bool :=
  match v with JObject _ => true | _ => false end.

(** A segment table as declared: an object whose values are all strings. *)
Definition is_string_table (v : Json) : bool :=
  match v with
  | JObject props =>
      forallb (fun kv => match snd kv with JString _ => true | _ => false end) props
  | _ => false
  end.

Definition segments_warning (e : JsError) : Effect :=
  Log Warn (js "Invalid segments JSON: " ++ Error_toString e).

(** The reading of the non-object case under which the projection to
    service areas fails for every parsed value that is not an object, the
    failure being caught with a warning as its only trace. *)
Definition nonobject_projection_always_fails : Prop :=
  forall (p : Platform) (topic msg : jsstring) (v : Json),
    endsWith topic (js "MapData/segments") = true ->
    JSON_parse msg = Normal v ->
    is_object v = false ->
    exists e,
      Object_entries v = Throw e
      /\ onMqttMessage topic msg p =
           (Normal tt, set_segments v p, [segments_warning e]).

(** The suffixes subscribed on connect, in the order of the tests of
    [onMqttMessage]. *)
Definition inbound_suffixes : list jsstring :=
  [js "BatteryStateAttribute/level";
   js "BatteryStateAttribute/status";
   js "DockStatusStateAttribute/status";
   js "StatusStateAttribute/error";
   js "AttachmentStateAttribute/watertank";
   js "FanSpeedControlCapability/preset";
   js "WaterUsageControlCapability/preset";
   js "MapData/segments"].

(** The suffixes the adapter publishes on. *)
Definition outbound_suffixes : list jsstring :=
  [js "BasicControlCapability/operation/set";
   js "OperationModeControlCapability/preset/set";
   js "FanSpeedControlCapability/preset/set";
   js "WaterUsageControlCapability/preset/set";
   js "MapSegmentationCapability/clean/set"].

(** The suffixes on which a message can have any consequence. *)
Definition acting_suffixes : list jsstring :=
  [js "BatteryStateAttribute/level";
   js "BatteryStateAttribute/status";
   js "DockStatusStateAttribute/status";
   js "StatusStateAttribute/error";
   js "AttachmentStateAttribute/watertank";
   js "MapData/segments"].

(** Effects a message handler may have: an update of the battery, the
    operational state or the service areas, or a warning. *)
Definition inbound_effect (e : Effect) : bool :=
  match e with
  | Device (updateBattery _) | Device (updateOperationalState _)
  | Device (updateServiceAreas _) | Log Warn _ => true
  | _ => false
  end.

(** The words of the basic-control topic. *)
Definition operation_words : list jsstring :=
  [js "START"; js "STOP"; js "PAUSE"; js "HOME"].

(** Device calls a handler may make: never a clean-mode update, and a
    run-mode update only to Cleaning. *)
Definition handler_call (c : DeviceCall) : bool :=
  match c with
  | updateCleanMode _ => false
  | updateRunMode Idle => false
  | _ => true
  end.

(** The topic an effect addresses on the broker, when it addresses one. *)
Definition broker_topic (e : Effect) : option jsstring :=
  match e with
  | Subscribe t | Publish t _ => Some t
  | _ => None
  end.

(** What the watertank payload says. *)
Definition attached (msg : jsstring) : bool :=
  streq msg (js "true") || streq msg (js "1").

Definition is_watertank_message (ev : Event) : bool :=
  match ev with
  | MqttMessage topic _ => endsWith topic (js "AttachmentStateAttribute/watertank")
  | _ => false
  end.

Definition is_segments_message (ev : Event) : bool :=
  match ev with
  | MqttMessage topic _ => endsWith topic (js "MapData/segments")
  | _ => false
  end.

(** A segments message whose payload parses. *)
Definition is_parsed_segments_message (ev : Event) : bool :=
  match ev with
  | MqttMessage topic msg =>
      endsWith topic (js "MapData/segments")
      && match JSON_parse msg with Normal _ => true | Throw _ => false end
  | _ => false
  end.

(** The suffixes clean-mode presets are published on. *)
Definition preset_suffixes : list jsstring :=
  [js "OperationModeControlCapability/preset/set";
   js "FanSpeedControlCapability/preset/set";
   js "WaterUsageControlCapability/preset/set"].

(** A preset publication, or the refusal of mop mode. *)
Definition clean_mode_effect (p : Platform) (e : Effect) : Prop :=
  (exists s v, e = Publish (topic_of p s) v /\ v <> [] /\ In s preset_suffixes)
  \/ e = Log Info (js "Mop selected but watertank is not attached; ignoring").

(** A decimal digit, and the integer a run of decimal digits writes. *)
Definition is_digit (c : N) : Prop := 48 <= c <= 57.

Definition digits_value (s : jsstring) : N :=
  fold_left (fun a c => a * 10 + (c - 48)) s 0.

(** The array index of each area id, where it is one. *)
Definition area_indices (areas : list Area) : list (option N) :=
  List.map (fun a => array_index (id a)) areas.

(** Indices first and ascending, then only ids that are not indices. *)
Fixpoint indices_first_ascending (l : list (option N)) : bool :=
  match l with
  | [] => true
  | None :: r => forallb (fun o => match o with None => true | Some _ => false end) r
  | Some i :: r =>
      match r with
      | Some j :: _ => i <=? j
      | _ => true
      end && indices_first_ascending r
  end.

(** A configured instance used for the worked examples: prefix [valetudo],
    identifier [robot], no [rvc] section (every option at its default). *)
Definition sample_config : PluginConfig :=
  mkConfig None
    (mkMqtt (js "mqtt://broker:1883") None None (js "valetudo") (js "robot"))
    None.

Definition sample : Platform := fst (constructor sample_config).

Definition no_area_derivation : Rvc :=
  mkRvc None None (Some false) None None None None None.

Definition sample_without_areas : Platform :=
  fst (constructor (mkConfig None (mqtt sample_config) (Some no_area_derivation))).

Definition segments_topic : jsstring := js "valetudo/robot/MapData/segments".

(** The presets as the configuration record holds them, read field by
    field: [None] where the [rvc] section or the field is absent or null. *)
Definition configured_vacuum (c : PluginConfig)
  : option jsstring * option jsstring :=
  match rvc c with
  | Some r => (operationModePresetVacuum r, fanPresetForVacuum r)
  | None => (None, None)
  end.

Definition configured_mop (c : PluginConfig)
  : option jsstring * option jsstring * option jsstring :=
  match rvc c with
  | Some r => (operationModePresetMop r, fanPresetForMop r, waterPresetForMop r)
  | None => (None, None, None)
  end.

(** A preset with a default: the configured value when there is one (an
    empty string included), the default otherwise. *)
Definition or_default (value : option jsstring) (default : jsstring)
  : option jsstring :=
  match value with
  | Some s => Some s
  | None => Some default
  end.

(** An instance with every preset configured, tank attached. *)
Definition all_presets : Rvc :=
  mkRvc None None None
        (Some (js "turbo")) (Some (js "vacuum"))
        (Some (js "low")) (Some (js "high")) (Some (js "mop")).

Definition sample_with_presets : Platform :=
  set_watertank true
    (fst (constructor (mkConfig None (mqtt sample_config) (Some all_presets)))).

(** An instance whose water preset for mop is configured as the empty
    string, tank attached. *)
Definition sample_with_empty_water : Platform :=
  set_watertank true
    (fst (constructor
            (mkConfig None (mqtt sample_config)
               (Some (mkRvc None None None None None None (Some []) None))))).

(** The largest integer up to which every integer is a binary64 value. *)
Definition max_exact_integer : N := 9007199254740992.

(* ------------------------------------------------------------------ *)
(** * Strings and topic dispatch *)

Lemma streq_true (a b : jsstring) : streq a b = true <-> a = b.
Proof.
  unfold streq. destruct (jsstring_dec a b); split; congruence.
Qed.

Lemma streq_false (a b : jsstring) : streq a b = false <-> a <> b.
Proof.
  unfold streq. destruct (jsstring_dec a b); split; congruence.
Qed.

Lemma streq_refl (a : jsstring) : streq a a = true.
Proof. now apply streq_true. Qed.

(** Two prefixes of one string: one of them is a prefix of the other. *)
Lemma starts_with_comparable (a b l : jsstring) :
  starts_with a l = true -> starts_with b l = true ->
  starts_with a b || starts_with b a = true.
Proof.
  revert b l. induction a as [|x a IH]; intros b l Ha Hb.
  - destruct b; reflexivity.
  - destruct b as [|y b]; [reflexivity|].
    destruct l as [|z l]; [discriminate|].
    cbn in Ha, Hb |- *.
    apply andb_true_iff in Ha as [Hx Ha], Hb as [Hy Hb].
    apply N.eqb_eq in Hx, Hy. subst.
    rewrite !N.eqb_refl. cbn. eauto.
Qed.

(** A topic matching one suffix matches no suffix unrelated to it. *)
Lemma endsWith_other (t s1 s2 : jsstring) :
  endsWith t s1 = true ->
  starts_with (rev s1) (rev s2) || starts_with (rev s2) (rev s1) = false ->
  endsWith t s2 = false.
Proof.
  unfold endsWith. intros H1 Hne.
  destruct (starts_with (rev s2) (rev t)) eqn:H2; [|reflexivity].
  rewrite (starts_with_comparable _ _ _ H1 H2) in Hne. discriminate.
Qed.

(** Resolve the chain of suffix tests of [onMqttMessage] for a topic known
    to end with one of the suffixes. *)
Ltac dispatch H :=
  unfold onMqttMessage;
  repeat first
    [ rewrite H
    | rewrite (endsWith_other _ _ _ H) by (vm_compute; reflexivity) ];
  cbv iota.

Lemma topic_of_inj (p : Platform) (a b : jsstring) :
  topic_of p a = topic_of p b -> a = b.
Proof.
  unfold topic_of. intros H.
  apply app_inv_head in H. now apply app_inv_head in H.
Qed.

Lemma published_on_same (p : Platform) (a v : jsstring) (tr : list Effect) :
  published_on p a (Publish (topic_of p a) v :: tr) = v :: published_on p a tr.
Proof.
  unfold published_on. cbn [flat_map].
  destruct (jsstring_dec (topic_of p a) (topic_of p a)); [reflexivity|congruence].
Qed.

Lemma published_on_other (p : Platform) (a b v : jsstring) (tr : list Effect) :
  streq b a = false ->
  published_on p a (Publish (topic_of p b) v :: tr) = published_on p a tr.
Proof.
  intros Hne. apply streq_false in Hne.
  unfold published_on. cbn [flat_map].
  destruct (jsstring_dec (topic_of p b) (topic_of p a)) as [E|]; [|reflexivity].
  apply topic_of_inj in E. contradiction.
Qed.

Lemma published_on_preset_other (p : Platform) (a b : jsstring) o (tr : list Effect) :
  streq b a = false ->
  published_on p a (preset p b o ++ tr) = published_on p a tr.
Proof.
  intros Hne. destruct o as [[|c s]|]; cbn [preset app]; try reflexivity.
  now apply published_on_other.
Qed.

Lemma published_on_preset_same (p : Platform) (a : jsstring) o (tr : list Effect) :
  published_on p a (preset p a o ++ tr) = present o ++ published_on p a tr.
Proof.
  destruct o as [[|c s]|]; cbn [preset present app]; try reflexivity.
  apply published_on_same.
Qed.

Lemma trim_start_blank (s : jsstring) :
  forallb isStrWhiteSpaceChar s = true -> trim_start s = [].
Proof.
  induction s as [|c s IH]; cbn [forallb trim_start]; [reflexivity|].
  intros H. apply andb_true_iff in H as [Hc Hs]. rewrite Hc. auto.
Qed.

Lemma Number_blank (s : jsstring) :
  forallb isStrWhiteSpaceChar s = true -> Number s = zero.
Proof.
  intros H. unfold Number, StringToNumber, trim.
  rewrite (trim_start_blank s H). reflexivity.
Qed.

(* ------------------------------------------------------------------ *)
(** * Inbound messages *)

Lemma battery_level_unfold (p : Platform) (topic s : jsstring) :
  endsWith topic (js "BatteryStateAttribute/level") = true ->
  onMqttMessage topic s p =
    (Normal tt, p,
     if isNaN (Number s) then [] else [Device (updateBattery (Number s))]).
Proof.
  intros H. dispatch H. destruct (isNaN (Number s)); reflexivity.
Qed.

(** C5.  On a topic ending with [BatteryStateAttribute/level] and payload
    [s], the handler returns normally, leaves the adapter fields as they
    were, and makes the device call [updateBattery(Number(s))] exactly when
    [Number(s)] is not NaN; when it is NaN it does nothing at all. *)
Theorem battery_level_message (p : Platform) (topic s : jsstring) :
  endsWith topic (js "BatteryStateAttribute/level") = true ->
  onMqttMessage topic s p =
    (Normal tt, p,
     if isNaN (Number s) then [] else [Device (updateBattery (Number s))])
  /\ (In (Device (updateBattery (Number s))) (snd (onMqttMessage topic s p))
      <-> isNaN (Number s) = false).
Proof.
  intros H.
  pose proof (battery_level_unfold p topic s H) as E.
  split; [exact E|].
  rewrite E. cbn [snd].
  destruct (isNaN (Number s)); cbn [In]; intuition congruence.
Qed.

Lemma battery_level_message_witness :
  endsWith (js "valetudo/robot/BatteryStateAttribute/level")
           (js "BatteryStateAttribute/level") = true
  /\ onMqttMessage (js "valetudo/robot/BatteryStateAttribute/level") (js "87") sample =
       (Normal tt, sample, [Device (updateBattery (Dec false 87 0))])
  /\ onMqttMessage (js "valetudo/robot/BatteryStateAttribute/level") (js "full") sample =
       (Normal tt, sample, []).
Proof.
  split; [vm_compute; reflexivity|]. split.
  - exact (proj1 (battery_level_message sample
                    (js "valetudo/robot/BatteryStateAttribute/level") (js "87")
                    ltac:(vm_compute; reflexivity))).
  - exact (proj1 (battery_level_message sample
                    (js "valetudo/robot/BatteryStateAttribute/level") (js "full")
                    ltac:(vm_compute; reflexivity))).
Defined.

(** C9.  A battery-level payload that is empty or made of white space only
    converts to the number 0, not to NaN, so the device battery is updated
    to 0 instead of the message being ignored. *)
Theorem battery_level_blank_payload (p : Platform) (topic s : jsstring) :
  endsWith topic (js "BatteryStateAttribute/level") = true ->
  forallb isStrWhiteSpaceChar s = true ->
  Number s = zero
  /\ isNaN (Number s) = false
  /\ onMqttMessage topic s p = (Normal tt, p, [Device (updateBattery zero)]).
Proof.
  intros H Hs.
  pose proof (Number_blank s Hs) as E.
  pose proof (battery_level_unfold p topic s H) as R.
  rewrite E in R |- *. repeat split; assumption.
Qed.

Lemma battery_level_blank_payload_witness :
  forallb isStrWhiteSpaceChar [] = true
  /\ onMqttMessage (js "valetudo/robot/BatteryStateAttribute/level") [] sample =
       (Normal tt, sample, [Device (updateBattery (Dec false 0 0))])
  /\ onMqttMessage (js "valetudo/robot/BatteryStateAttribute/level") (js "  ") sample =
       (Normal tt, sample, [Device (updateBattery (Dec false 0 0))]).
Proof.
  split; [reflexivity|]. split.
  - apply (battery_level_blank_payload sample
             (js "valetudo/robot/BatteryStateAttribute/level") []);
      vm_compute; reflexivity.
  - apply (battery_level_blank_payload sample
             (js "valetudo/robot/BatteryStateAttribute/level") (js "  "));
      vm_compute; reflexivity.
Defined.

(** C8.  On a topic ending with [DockStatusStateAttribute/status] the payloads
    [cleaning], [idle], [pause] and [error] set the operational state to
    Running, Docked, Paused and Error respectively, and any other payload
    changes nothing; the adapter fields are untouched in every case. *)
Theorem dock_status_message (p : Platform) (topic msg : jsstring) :
  endsWith topic (js "DockStatusStateAttribute/status") = true ->
  (msg = js "cleaning" ->
   onMqttMessage topic msg p = (Normal tt, p, [Device (updateOperationalState Running)]))
  /\ (msg = js "idle" ->
      onMqttMessage topic msg p = (Normal tt, p, [Device (updateOperationalState Docked)]))
  /\ (msg = js "pause" ->
      onMqttMessage topic msg p = (Normal tt, p, [Device (updateOperationalState Paused)]))
  /\ (msg = js "error" ->
      onMqttMessage topic msg p = (Normal tt, p, [Device (updateOperationalState Error)]))
  /\ (msg <> js "cleaning" -> msg <> js "idle" -> msg <> js "pause" ->
      msg <> js "error" ->
      onMqttMessage topic msg p = (Normal tt, p, [])).
Proof.
  intros H. dispatch H.
  repeat split; intros; subst;
    try (vm_compute; reflexivity).
  repeat match goal with
         | Hne : msg <> _ |- _ => apply streq_false in Hne; rewrite Hne; clear Hne
         end.
  reflexivity.
Qed.

Lemma dock_status_message_witness :
  endsWith (js "valetudo/robot/DockStatusStateAttribute/status")
           (js "DockStatusStateAttribute/status") = true
  /\ onMqttMessage (js "valetudo/robot/DockStatusStateAttribute/status")
                   (js "idle") sample =
       (Normal tt, sample, [Device (updateOperationalState Docked)])
  /\ onMqttMessage (js "valetudo/robot/DockStatusStateAttribute/status")
                   (js "returning") sample =
       (Normal tt, sample, []).
Proof.
  split; [vm_compute; reflexivity|]. split.
  - apply (dock_status_message sample
             (js "valetudo/robot/DockStatusStateAttribute/status") (js "idle"));
      vm_compute; reflexivity.
  - apply (dock_status_message sample
             (js "valetudo/robot/DockStatusStateAttribute/status") (js "returning"));
      [vm_compute; reflexivity | | | | ];
      intros E; vm_compute in E; discriminate E.
Defined.

(** C7.  On a topic ending with [StatusStateAttribute/error] the empty
    payload and the payloads [{}] and [null] leave the operational state
    alone (no device call, no field change); every other payload sets the
    operational state to Error. *)
Theorem status_error_message (p : Platform) (topic msg : jsstring) :
  endsWith topic (js "StatusStateAttribute/error") = true ->
  (msg = [] \/ msg = js "{}" \/ msg = js "null" ->
   onMqttMessage topic msg p = (Normal tt, p, []))
  /\ (msg <> [] -> msg <> js "{}" -> msg <> js "null" ->
      onMqttMessage topic msg p =
        (Normal tt, p, [Device (updateOperationalState Error)])).
Proof.
  intros H. dispatch H. split.
  - intros [-> | [-> | ->]]; vm_compute; reflexivity.
  - intros H0 H1 H2.
    apply streq_false in H1, H2. rewrite H1, H2.
    destruct msg; [contradiction|reflexivity].
Qed.

Lemma status_error_message_witness :
  endsWith (js "valetudo/robot/StatusStateAttribute/error")
           (js "StatusStateAttribute/error") = true
  /\ onMqttMessage (js "valetudo/robot/StatusStateAttribute/error")
                   (js "{}") sample = (Normal tt, sample, [])
  /\ onMqttMessage (js "valetudo/robot/StatusStateAttribute/error")
                   (json_text "{'severity':'error'}") sample =
       (Normal tt, sample, [Device (updateOperationalState Error)]).
Proof.
  split; [vm_compute; reflexivity|]. split.
  - apply (status_error_message sample
             (js "valetudo/robot/StatusStateAttribute/error") (js "{}"));
      [vm_compute; reflexivity | right; left; reflexivity].
  - apply (status_error_message sample
             (js "valetudo/robot/StatusStateAttribute/error")
             (json_text "{'severity':'error'}"));
      [vm_compute; reflexivity | | | ];
      intros E; vm_compute in E; discriminate E.
Defined.

(** ** The segment table *)

Lemma segments_message_unfold (p : Platform) (topic msg : jsstring) :
  endsWith topic (js "MapData/segments") = true ->
  onMqttMessage topic msg p =
    match JSON_parse msg with
    | Throw e => (Normal tt, p, [segments_warning e])
    | Normal v =>
        if derives_areas (cfg p) then
          match Object_entries v with
          | Normal entries =>
              (Normal tt, set_segments v p,
               [Device (updateServiceAreas (areas_of entries))])
          | Throw e => (Normal tt, set_segments v p, [segments_warning e])
          end
        else (Normal tt, set_segments v p, [])
    end.
Proof.
  intros H. dispatch H.
  unfold try_catch, bind, lift, modify, this, emit, ret, derives_areas,
    segments_warning, areas_of.
  destruct (JSON_parse msg) as [v|e]; [|reflexivity].
  cbn [cfg set_segments segments].
  destruct (rvc_field mapServiceAreasFromSegments (cfg p)) as [[|]|];
    cbn [negb]; try reflexivity;
    destruct (Object_entries v); reflexivity.
Qed.

(** C1.  On a topic ending with [MapData/segments], a payload that
    [JSON.parse] rejects leaves the stored segment table (and every other
    field) as it was, logs one warning, reaches neither the device nor the
    broker, and the handler returns normally. *)
Theorem segments_invalid_json (p : Platform) (topic msg : jsstring) (e : JsError) :
  endsWith topic (js "MapData/segments") = true ->
  JSON_parse msg = Throw e ->
  onMqttMessage topic msg p =
    (Normal tt, p, [Log Warn (js "Invalid segments JSON: " ++ Error_toString e)])
  /\ segments (snd (fst (onMqttMessage topic msg p))) = segments p.
Proof.
  intros H Hparse.
  rewrite (segments_message_unfold p topic msg H), Hparse.
  split; reflexivity.
Qed.

Lemma segments_invalid_json_witness :
  endsWith segments_topic (js "MapData/segments") = true
  /\ JSON_parse (js "{oops") =
       Throw (mkError SyntaxError (js "Unexpected token in JSON"))
  /\ onMqttMessage segments_topic (js "{oops") sample =
       (Normal tt, sample,
        [Log Warn (js "Invalid segments JSON: SyntaxError: Unexpected token in JSON")]).
Proof.
  split; [vm_compute; reflexivity|]. split; [vm_compute; reflexivity|].
  apply (segments_invalid_json sample segments_topic (js "{oops")
           (mkError SyntaxError (js "Unexpected token in JSON")));
    vm_compute; reflexivity.
Defined.

(** C4.  On a topic ending with [MapData/segments], a payload that parses
    to a JSON object replaces the segment table by that object; unless
    [mapServiceAreasFromSegments] is [false], the device's service areas are
    then set to the [{id, name}] pairs of the table's entries, and with the
    option [false] the device is not called. *)
Theorem segments_object (p : Platform) (topic msg : jsstring)
        (props : list (jsstring * Json)) :
  endsWith topic (js "MapData/segments") = true ->
  JSON_parse msg = Normal (JObject props) ->
  onMqttMessage topic msg p =
    (Normal tt, set_segments (JObject props) p,
     if derives_areas (cfg p)
     then [Device (updateServiceAreas
                     (List.map (fun kv => mkArea (fst kv) (snd kv))
                               (own_entries props)))]
     else []).
Proof.
  intros H Hparse.
  rewrite (segments_message_unfold p topic msg H), Hparse.
  cbn [Object_entries]. destruct (derives_areas (cfg p)); reflexivity.
Qed.

Lemma segments_object_witness :
  endsWith segments_topic (js "MapData/segments") = true
  /\ JSON_parse (json_text "{'1':'Kitchen','2':'Hall'}") =
       Normal (JObject [(js "1", JString (js "Kitchen")); (js "2", JString (js "Hall"))])
  /\ onMqttMessage segments_topic (json_text "{'1':'Kitchen','2':'Hall'}") sample =
       (Normal tt,
        set_segments
          (JObject [(js "1", JString (js "Kitchen")); (js "2", JString (js "Hall"))])
          sample,
        [Device (updateServiceAreas
                   [mkArea (js "1") (JString (js "Kitchen"));
                    mkArea (js "2") (JString (js "Hall"))])])
  /\ onMqttMessage segments_topic (json_text "{'1':'Kitchen','2':'Hall'}")
                   sample_without_areas =
       (Normal tt,
        set_segments
          (JObject [(js "1", JString (js "Kitchen")); (js "2", JString (js "Hall"))])
          sample_without_areas,
        []).
Proof.
  split; [vm_compute; reflexivity|]. split; [vm_compute; reflexivity|]. split.
  - apply (segments_object sample segments_topic
             (json_text "{'1':'Kitchen','2':'Hall'}")
             [(js "1", JString (js "Kitchen")); (js "2", JString (js "Hall"))]);
      vm_compute; reflexivity.
  - apply (segments_object sample_without_areas segments_topic
             (json_text "{'1':'Kitchen','2':'Hall'}")
             [(js "1", JString (js "Kitchen")); (js "2", JString (js "Hall"))]);
      vm_compute; reflexivity.
Defined.

(** C10, as amended.  On a topic ending with [MapData/segments], a payload
    that parses to a value that is not an object replaces the segment table
    by that value, so the stored table is no longer a string-to-string
    mapping, and the handler returns normally.  With area derivation on and
    the value [null], the projection fails after the replacement and a
    warning is the only trace; for every other non-object value the
    projection succeeds and the service areas are set from the value's
    entries; with area derivation off nothing else happens. *)
Theorem segments_nonobject (p : Platform) (topic msg : jsstring) (v : Json) :
  endsWith topic (js "MapData/segments") = true ->
  JSON_parse msg = Normal v ->
  is_object v = false ->
  onMqttMessage topic msg p =
    (Normal tt, set_segments v p,
     if derives_areas (cfg p) then
       match v with
       | JNull =>
           [segments_warning
              (mkError TypeError (js "Cannot convert undefined or null to object"))]
       | JBool _ | JNumber _ => [Device (updateServiceAreas [])]
       | JString s =>
           [Device (updateServiceAreas
                      (areas_of (indexed 0 (List.map (fun c => JString [c]) s))))]
       | JArray items => [Device (updateServiceAreas (areas_of (indexed 0 items)))]
       | JObject props => [Device (updateServiceAreas (areas_of (own_entries props)))]
       end
     else [])
  /\ segments (set_segments v p) = v
  /\ is_string_table (segments (set_segments v p)) = false.
Proof.
  intros H Hparse Hobj.
  rewrite (segments_message_unfold p topic msg H), Hparse.
  split; [|split].
  - destruct (derives_areas (cfg p)); [|reflexivity].
    destruct v; reflexivity.
  - reflexivity.
  - destruct v; try reflexivity. discriminate Hobj.
Qed.

Lemma segments_nonobject_witness :
  endsWith segments_topic (js "MapData/segments") = true
  /\ JSON_parse (js "null") = Normal JNull
  /\ is_object JNull = false
  /\ onMqttMessage segments_topic (js "null") sample =
       (Normal tt, set_segments JNull sample,
        [Log Warn (js "Invalid segments JSON: TypeError: Cannot convert undefined or null to object")]).
Proof.
  split; [vm_compute; reflexivity|]. split; [vm_compute; reflexivity|].
  split; [reflexivity|].
  apply (segments_nonobject sample segments_topic (js "null") JNull);
    vm_compute; reflexivity.
Defined.

(** C10, as first stated, fails: the payload [5] is valid JSON and not an
    object, its projection does not fail, no warning is logged and the
    device's service areas are set to the empty list. *)
Lemma segments_nonobject_number_counterexample :
  JSON_parse (js "5") = Normal (JNumber (Dec false 5 0))
  /\ Object_entries (JNumber (Dec false 5 0)) = Normal []
  /\ onMqttMessage segments_topic (js "5") sample =
       (Normal tt, set_segments (JNumber (Dec false 5 0)) sample,
        [Device (updateServiceAreas [])])
  /\ ~ nonobject_projection_always_fails.
Proof.
  split; [vm_compute; reflexivity|]. split; [reflexivity|].
  split; [vm_compute; reflexivity|].
  intros claim.
  destruct (claim sample segments_topic (js "5") (JNumber (Dec false 5 0)))
    as [e [Hfail _]]; try (vm_compute; reflexivity).
  discriminate Hfail.
Qed.

(* ------------------------------------------------------------------ *)
(** * Outbound commands *)

Lemma publish_run (p : Platform) (suffix : jsstring) (payload : Json) :
  publish suffix payload p =
    (Normal tt, p,
     [Publish (topic_of p suffix)
        match payload with JString s => s | _ => JSON_stringify payload end]).
Proof. reflexivity. Qed.

(** A guarded publish of an optional preset is the message of [preset]. *)
Lemma guarded_preset (p : Platform) (suffix : jsstring) (o : option jsstring) :
  (if truthy_opt o then publish suffix (preset_value o) else ret tt) p =
    (Normal tt, p, preset p suffix o).
Proof.
  destruct o as [[|c s]|]; reflexivity.
Qed.

Lemma guarded_preset_default (p : Platform) (suffix d : jsstring)
      (o : option jsstring) :
  (if truthy (nullish o d) then publish suffix (JString (nullish o d)) else ret tt) p =
    (Normal tt, p, preset p suffix (Some (nullish o d))).
Proof.
  destruct (nullish o d); reflexivity.
Qed.

Lemma vacuum_unfold (p : Platform) :
  applyCleanMode Vacuum p =
    (Normal tt, p,
     preset p (js "OperationModeControlCapability/preset/set")
            (rvc_field operationModePresetVacuum (cfg p))
     ++ preset p (js "FanSpeedControlCapability/preset/set")
               (Some (nullish (rvc_field fanPresetForVacuum (cfg p)) (js "standard")))
     ++ [Publish (topic_of p (js "WaterUsageControlCapability/preset/set")) (js "off")]).
Proof.
  unfold applyCleanMode, bind, this.
  rewrite guarded_preset, guarded_preset_default, publish_run.
  reflexivity.
Qed.

(** C6.  Whatever the configuration, a clean-mode-change event with mode
    Vacuum publishes, in this order: the vacuum operation-mode preset when
    one is configured, the vacuum fan preset when present (["standard"]
    unless configured), then ["off"] on
    [WaterUsageControlCapability/preset/set]; that last topic receives
    ["off"] and nothing else, once.  No field changes. *)
Theorem vacuum_mode (p : Platform) :
  let '(opVac, fanVac) := configured_vacuum (cfg p) in
  handle (CleanModeChange Vacuum) p =
    (Normal tt, p,
     preset p (js "OperationModeControlCapability/preset/set") opVac
     ++ preset p (js "FanSpeedControlCapability/preset/set")
               (or_default fanVac (js "standard"))
     ++ [Publish (topic_of p (js "WaterUsageControlCapability/preset/set")) (js "off")])
  /\ published_on p (js "WaterUsageControlCapability/preset/set")
                  (snd (handle (CleanModeChange Vacuum) p)) = [js "off"]
  /\ published_on p (js "OperationModeControlCapability/preset/set")
                  (snd (handle (CleanModeChange Vacuum) p)) = present opVac
  /\ published_on p (js "FanSpeedControlCapability/preset/set")
                  (snd (handle (CleanModeChange Vacuum) p))
     = present (or_default fanVac (js "standard"))
  /\ (rvc (cfg p) = None ->
      snd (handle (CleanModeChange Vacuum) p) =
        [Publish (topic_of p (js "FanSpeedControlCapability/preset/set")) (js "standard");
         Publish (topic_of p (js "WaterUsageControlCapability/preset/set")) (js "off")]).
Proof.
  cbn [handle]. unfold onCleanModeChange. rewrite vacuum_unfold. cbn [snd].
  unfold configured_vacuum, rvc_field.
  assert (K : forall opVac fanVac,
             let tr := preset p (js "OperationModeControlCapability/preset/set") opVac
                       ++ preset p (js "FanSpeedControlCapability/preset/set") fanVac
                       ++ [Publish (topic_of p (js "WaterUsageControlCapability/preset/set"))
                                   (js "off")] in
             published_on p (js "WaterUsageControlCapability/preset/set") tr = [js "off"]
             /\ published_on p (js "OperationModeControlCapability/preset/set") tr
                = present opVac
             /\ published_on p (js "FanSpeedControlCapability/preset/set") tr
                = present fanVac).
  { intros opVac fanVac. cbv zeta. repeat split.
    - rewrite !published_on_preset_other by (vm_compute; reflexivity).
      rewrite published_on_same. reflexivity.
    - rewrite published_on_preset_same.
      rewrite published_on_preset_other by (vm_compute; reflexivity).
      rewrite published_on_other by (vm_compute; reflexivity).
      apply app_nil_r.
    - rewrite published_on_preset_other by (vm_compute; reflexivity).
      rewrite published_on_preset_same.
      rewrite published_on_other by (vm_compute; reflexivity).
      apply app_nil_r. }
  destruct (rvc (cfg p)) as [r|].
  - assert (E : Some (nullish (fanPresetForVacuum r) (js "standard"))
                = or_default (fanPresetForVacuum r) (js "standard"))
      by (destruct (fanPresetForVacuum r); reflexivity).
    rewrite E.
    destruct (K (operationModePresetVacuum r)
                (or_default (fanPresetForVacuum r) (js "standard")))
      as (K1 & K2 & K3).
    repeat split; try assumption. discriminate.
  - destruct (K None (or_default None (js "standard"))) as (K1 & K2 & K3).
    repeat split; assumption.
Qed.

Lemma vacuum_mode_witness :
  rvc (cfg sample) = None
  /\ handle (CleanModeChange Vacuum) sample =
       (Normal tt, sample,
        [Publish (js "valetudo/robot/FanSpeedControlCapability/preset/set")
                 (js "standard");
         Publish (js "valetudo/robot/WaterUsageControlCapability/preset/set")
                 (js "off")])
  /\ handle (CleanModeChange Vacuum) sample_with_presets =
       (Normal tt, sample_with_presets,
        [Publish (js "valetudo/robot/OperationModeControlCapability/preset/set")
                 (js "vacuum");
         Publish (js "valetudo/robot/FanSpeedControlCapability/preset/set")
                 (js "turbo");
         Publish (js "valetudo/robot/WaterUsageControlCapability/preset/set")
                 (js "off")])
  /\ published_on sample_with_presets (js "WaterUsageControlCapability/preset/set")
                  (snd (handle (CleanModeChange Vacuum) sample_with_presets))
     = [js "off"].
Proof.
  split; [reflexivity|]. split; [|split].
  - exact (proj1 (vacuum_mode sample)).
  - exact (proj1 (vacuum_mode sample_with_presets)).
  - exact (proj1 (proj2 (vacuum_mode sample_with_presets))).
Defined.

Lemma mop_unfold (p : Platform) :
  applyCleanMode Mop p =
    if watertank p then
      (Normal tt, p,
       preset p (js "OperationModeControlCapability/preset/set")
              (rvc_field operationModePresetMop (cfg p))
       ++ preset p (js "FanSpeedControlCapability/preset/set")
                 (rvc_field fanPresetForMop (cfg p))
       ++ preset p (js "WaterUsageControlCapability/preset/set")
                 (Some (nullish (rvc_field waterPresetForMop (cfg p)) (js "medium"))))
    else
      (Normal tt, p,
       [Log Info (js "Mop selected but watertank is not attached; ignoring")]).
Proof.
  unfold applyCleanMode, bind at 1, this.
  destruct (watertank p); cbn [negb]; [|reflexivity].
  unfold bind.
  rewrite !guarded_preset, guarded_preset_default.
  reflexivity.
Qed.

(** C2.  A clean-mode-change event with mode Mop while the watertank flag is
    false publishes nothing, logs one informational message and changes no
    field.  With the flag true it publishes, in this order and each on its
    own topic exactly once when present: the configured mop operation-mode
    preset, the configured mop fan preset (none unless configured), the
    configured mop water-usage preset (["medium"] unless configured); no
    field changes either.  A preset is present when it is a non-empty
    string. *)
Theorem mop_mode (p : Platform) :
  (watertank p = false ->
   handle (CleanModeChange Mop) p =
     (Normal tt, p,
      [Log Info (js "Mop selected but watertank is not attached; ignoring")])
   /\ publications (snd (handle (CleanModeChange Mop) p)) = [])
  /\ (watertank p = true ->
      let '(opMop, fanMop, waterMop) := configured_mop (cfg p) in
      let tr := snd (handle (CleanModeChange Mop) p) in
      handle (CleanModeChange Mop) p =
        (Normal tt, p,
         preset p (js "OperationModeControlCapability/preset/set") opMop
         ++ preset p (js "FanSpeedControlCapability/preset/set") fanMop
         ++ preset p (js "WaterUsageControlCapability/preset/set")
                   (or_default waterMop (js "medium")))
      /\ published_on p (js "OperationModeControlCapability/preset/set") tr
         = present opMop
      /\ published_on p (js "FanSpeedControlCapability/preset/set") tr
         = present fanMop
      /\ published_on p (js "WaterUsageControlCapability/preset/set") tr
         = present (or_default waterMop (js "medium"))
      /\ (rvc (cfg p) = None ->
          tr = [Publish (topic_of p (js "WaterUsageControlCapability/preset/set"))
                        (js "medium")])).
Proof.
  cbn [handle]. unfold onCleanModeChange. rewrite mop_unfold.
  split; intros ->.
  - split; reflexivity.
  - unfold configured_mop, rvc_field.
    assert (K : forall opMop fanMop waterMop,
               let tr := preset p (js "OperationModeControlCapability/preset/set") opMop
                         ++ preset p (js "FanSpeedControlCapability/preset/set") fanMop
                         ++ preset p (js "WaterUsageControlCapability/preset/set") waterMop in
               published_on p (js "OperationModeControlCapability/preset/set") tr
               = present opMop
               /\ published_on p (js "FanSpeedControlCapability/preset/set") tr
                  = present fanMop
               /\ published_on p (js "WaterUsageControlCapability/preset/set") tr
                  = present waterMop).
    { intros opMop fanMop waterMop. cbv zeta.
      rewrite <- (app_nil_r (preset p (js "WaterUsageControlCapability/preset/set")
                                    waterMop)).
      repeat split.
      - rewrite published_on_preset_same.
        rewrite !published_on_preset_other by (vm_compute; reflexivity).
        apply app_nil_r.
      - rewrite published_on_preset_other by (vm_compute; reflexivity).
        rewrite published_on_preset_same.
        rewrite published_on_preset_other by (vm_compute; reflexivity).
        apply app_nil_r.
      - rewrite !published_on_preset_other by (vm_compute; reflexivity).
        rewrite published_on_preset_same. apply app_nil_r. }
    destruct (rvc (cfg p)) as [r|]; cbv zeta; cbn [snd].
    + assert (E : Some (nullish (waterPresetForMop r) (js "medium"))
                  = or_default (waterPresetForMop r) (js "medium"))
        by (destruct (waterPresetForMop r); reflexivity).
      rewrite E.
      destruct (K (operationModePresetMop r) (fanPresetForMop r)
                  (or_default (waterPresetForMop r) (js "medium")))
        as (K1 & K2 & K3).
      repeat split; try assumption. discriminate.
    + destruct (K None None (or_default None (js "medium"))) as (K1 & K2 & K3).
      repeat split; assumption.
Qed.

Lemma mop_mode_witness :
  watertank sample = false
  /\ handle (CleanModeChange Mop) sample =
       (Normal tt, sample,
        [Log Info (js "Mop selected but watertank is not attached; ignoring")])
  /\ watertank sample_with_presets = true
  /\ handle (CleanModeChange Mop) sample_with_presets =
       (Normal tt, sample_with_presets,
        [Publish (js "valetudo/robot/OperationModeControlCapability/preset/set")
                 (js "mop");
         Publish (js "valetudo/robot/FanSpeedControlCapability/preset/set")
                 (js "low");
         Publish (js "valetudo/robot/WaterUsageControlCapability/preset/set")
                 (js "high")])
  /\ handle (CleanModeChange Mop) (set_watertank true sample) =
       (Normal tt, set_watertank true sample,
        [Publish (js "valetudo/robot/WaterUsageControlCapability/preset/set")
                 (js "medium")])
  /\ handle (CleanModeChange Mop) sample_with_empty_water =
       (Normal tt, sample_with_empty_water, []).
Proof.
  split; [reflexivity|]. split; [|split; [reflexivity|split; [|split]]].
  - exact (proj1 (proj1 (mop_mode sample) eq_refl)).
  - exact (proj1 (proj2 (mop_mode sample_with_presets) eq_refl)).
  - exact (proj1 (proj2 (mop_mode (set_watertank true sample)) eq_refl)).
  - exact (proj1 (proj2 (mop_mode sample_with_empty_water) eq_refl)).
Defined.

(** C3.  [cleanServiceAreas(areaIds)] does nothing when [areaIds] is
    undefined, null, any other value that is not an array, or the empty
    array.  For a non-empty array it publishes one message on
    [MapSegmentationCapability/clean/set], the JSON text of
    [{segment_ids: areaIds}], and then sets the run mode to Cleaning; the
    adapter fields stay as they were. *)
Theorem clean_service_areas (p : Platform) (areaIds : Value) :
  (areaIds = Undefined \/ areaIds = Data JNull
   \/ (exists v, areaIds = Data v /\ Array_isArray v = false)
   \/ areaIds = Data (JArray []) ->
   cleanServiceAreas areaIds p = (Normal tt, p, []))
  /\ (forall x xs, areaIds = Data (JArray (x :: xs)) ->
      cleanServiceAreas areaIds p =
        (Normal tt, p,
         [Publish (topic_of p (js "MapSegmentationCapability/clean/set"))
                  (js "{" ++ quote (js "segment_ids") ++ js ":"
                   ++ JSON_stringify (JArray (x :: xs)) ++ js "}");
          Device (updateRunMode Cleaning)])).
Proof.
  split.
  - intros [-> | [-> | [[v [-> Hv]] | ->]]]; try reflexivity.
    unfold cleanServiceAreas. rewrite Hv. reflexivity.
  - intros x xs ->. reflexivity.
Qed.

Lemma clean_service_areas_witness :
  cleanServiceAreas (Data (JArray [])) sample = (Normal tt, sample, [])
  /\ cleanServiceAreas (Data (JArray [JString (js "A"); JString (js "B")])) sample =
       (Normal tt, sample,
        [Publish (js "valetudo/robot/MapSegmentationCapability/clean/set")
                 (json_text "{'segment_ids':['A','B']}");
         Device (updateRunMode Cleaning)]).
Proof.
  split.
  - apply (proj1 (clean_service_areas sample (Data (JArray [])))).
    right; right; right; reflexivity.
  - exact (proj2 (clean_service_areas sample
                    (Data (JArray [JString (js "A"); JString (js "B")])))
                 (JString (js "A")) [JString (js "B")] eq_refl).
Defined.

(* ------------------------------------------------------------------ *)
(** * Further properties of the handlers *)

(** Every test of [onMqttMessage] fails for a topic that ends with a suffix
    unrelated to all eight. *)
Ltac no_dispatch H :=
  unfold onMqttMessage;
  repeat rewrite (endsWith_other _ _ _ H) by (vm_compute; reflexivity);
  cbv iota.

Lemma endsWith_app (t s : jsstring) : endsWith (t ++ s) s = true.
Proof.
  unfold endsWith. rewrite rev_app_distr.
  induction (rev s) as [|c r IH]; cbn; [reflexivity|].
  now rewrite N.eqb_refl.
Qed.

Lemma endsWith_topic_of (p : Platform) (s : jsstring) :
  endsWith (topic_of p s) s = true.
Proof.
  unfold topic_of. rewrite app_assoc. apply endsWith_app.
Qed.

(** The shape of every outcome of [onMqttMessage]. *)
Lemma message_shape (p : Platform) (topic msg : jsstring) :
  exists b v tr,
    onMqttMessage topic msg p = (Normal tt, mkPlatform (cfg p) (base p) b v, tr)
    /\ (List.length tr <= 1)%nat
    /\ forallb inbound_effect tr = true
    /\ (endsWith topic (js "AttachmentStateAttribute/watertank") = false ->
        b = watertank p)
    /\ (endsWith topic (js "MapData/segments") = false -> v = segments p).
Proof.
  destruct p as [c bs w sg].
  assert (Hkeep : forall (m : M unit) tr,
             m (mkPlatform c bs w sg) = (Normal tt, mkPlatform c bs w sg, tr) ->
             (List.length tr <= 1)%nat -> forallb inbound_effect tr = true ->
             exists b v tr',
               m (mkPlatform c bs w sg) = (Normal tt, mkPlatform c bs b v, tr')
               /\ (List.length tr' <= 1)%nat
               /\ forallb inbound_effect tr' = true
               /\ (endsWith topic (js "AttachmentStateAttribute/watertank") = false ->
                   b = w)
               /\ (endsWith topic (js "MapData/segments") = false -> v = sg)).
  { intros m tr E Hl Hi. exists w, sg, tr. auto. }
  cbn [cfg base watertank segments].
  unfold onMqttMessage.
  destruct (endsWith topic (js "BatteryStateAttribute/level")).
  { destruct (isNaN (Number msg)); cbn [negb];
      eapply Hkeep; try reflexivity; cbn; lia. }
  destruct (endsWith topic (js "BatteryStateAttribute/status")).
  { destruct (streq msg (js "charging"));
      eapply Hkeep; try reflexivity; cbn; lia. }
  destruct (endsWith topic (js "DockStatusStateAttribute/status")).
  { destruct (streq msg (js "cleaning"));
      [eapply Hkeep; try reflexivity; cbn; lia|].
    destruct (streq msg (js "idle"));
      [eapply Hkeep; try reflexivity; cbn; lia|].
    destruct (streq msg (js "pause"));
      [eapply Hkeep; try reflexivity; cbn; lia|].
    destruct (streq msg (js "error"));
      eapply Hkeep; try reflexivity; cbn; lia. }
  destruct (endsWith topic (js "StatusStateAttribute/error")).
  { destruct (truthy msg && negb (streq msg (js "{}")) && negb (streq msg (js "null")));
      eapply Hkeep; try reflexivity; cbn; lia. }
  destruct (endsWith topic (js "AttachmentStateAttribute/watertank")) eqn:Hw.
  { exists (streq msg (js "true") || streq msg (js "1")), sg, [].
    cbn. repeat split; auto. discriminate. }
  destruct (endsWith topic (js "FanSpeedControlCapability/preset")).
  { eapply Hkeep; try reflexivity; cbn; lia. }
  destruct (endsWith topic (js "WaterUsageControlCapability/preset")).
  { eapply Hkeep; try reflexivity; cbn; lia. }
  destruct (endsWith topic (js "MapData/segments")) eqn:Hs.
  2:{ eapply Hkeep; try reflexivity; cbn; lia. }
  unfold try_catch, bind, lift, modify, this, emit, ret.
  destruct (JSON_parse msg) as [v|e].
  2:{ eexists w, sg, _. split; [reflexivity|].
      cbn. repeat split; auto. }
  cbn [cfg set_segments segments base watertank].
  destruct (rvc_field mapServiceAreasFromSegments c) as [[|]|]; cbn [negb];
    try destruct (Object_entries v);
    (eexists w, v, _; split; [reflexivity|]; cbn; repeat split; auto; discriminate).
Qed.

(** X1.  Whatever the topic and the payload, [onMqttMessage] returns
    normally, leaves the configuration and the base topic alone, and has at
    most one effect, which is an update of the battery, of the operational
    state or of the service areas, or a warning: it never publishes, never
    subscribes, never logs at another level and never sets a mode. *)
Theorem message_never_throws_nor_publishes (p : Platform) (topic msg : jsstring) :
  let '(r, p', tr) := onMqttMessage topic msg p in
  r = Normal tt
  /\ cfg p' = cfg p
  /\ base p' = base p
  /\ (List.length tr <= 1)%nat
  /\ (forall e, In e tr ->
      (exists pct, e = Device (updateBattery pct))
      \/ (exists st, e = Device (updateOperationalState st))
      \/ (exists areas, e = Device (updateServiceAreas areas))
      \/ (exists text, e = Log Warn text))
  /\ publications tr = []
  /\ (forall e, In e tr -> broker_topic e = None).
Proof.
  destruct (message_shape p topic msg) as (b & v & tr & E & Hl & Hi & _).
  rewrite E. repeat split; auto.
  - intros e He. rewrite forallb_forall in Hi. specialize (Hi e He).
    destruct e as [| | | |[]|[]]; try discriminate Hi; eauto 6.
  - destruct tr as [|e [|e' tr]]; [reflexivity| |cbn in Hl; lia].
    cbn in Hi |- *. destruct e as [| | | | |[]]; try discriminate; reflexivity.
  - intros e He. rewrite forallb_forall in Hi. specialize (Hi e He).
    destruct e; try discriminate; reflexivity.
Qed.

Lemma message_never_throws_nor_publishes_witness :
  let '(r, p', tr) := onMqttMessage segments_topic (js "null") sample in
  r = Normal tt
  /\ cfg p' = cfg sample
  /\ base p' = base sample
  /\ (List.length tr <= 1)%nat
  /\ (forall e, In e tr ->
      (exists pct, e = Device (updateBattery pct))
      \/ (exists st, e = Device (updateOperationalState st))
      \/ (exists areas, e = Device (updateServiceAreas areas))
      \/ (exists text, e = Log Warn text))
  /\ publications tr = []
  /\ (forall e, In e tr -> broker_topic e = None).
Proof.
  exact (message_never_throws_nor_publishes sample segments_topic (js "null")).
Defined.

(** X2.  Only a message on the watertank topic can change the watertank
    flag, and only a message on the segments topic can change the segment
    table. *)
Theorem message_frame (p : Platform) (topic msg : jsstring) :
  (endsWith topic (js "AttachmentStateAttribute/watertank") = false ->
   watertank (snd (fst (onMqttMessage topic msg p))) = watertank p)
  /\ (endsWith topic (js "MapData/segments") = false ->
      segments (snd (fst (onMqttMessage topic msg p))) = segments p).
Proof.
  destruct (message_shape p topic msg) as (b & v & tr & E & _ & _ & Hw & Hs).
  rewrite E. cbn. split; assumption.
Qed.

Lemma message_frame_witness :
  endsWith segments_topic (js "AttachmentStateAttribute/watertank") = false
  /\ watertank (snd (fst (onMqttMessage segments_topic (js "null")
                            (set_watertank true sample)))) = true
  /\ endsWith (js "valetudo/robot/AttachmentStateAttribute/watertank")
              (js "MapData/segments") = false
  /\ segments (snd (fst (onMqttMessage
                           (js "valetudo/robot/AttachmentStateAttribute/watertank")
                           (js "true") sample))) = JObject [].
Proof.
  split; [vm_compute; reflexivity|]. split.
  - apply (proj1 (message_frame (set_watertank true sample) segments_topic (js "null"))).
    vm_compute; reflexivity.
  - split; [vm_compute; reflexivity|].
    apply (proj2 (message_frame sample
                    (js "valetudo/robot/AttachmentStateAttribute/watertank")
                    (js "true"))).
    vm_compute; reflexivity.
Defined.

(** X3.  A message on a topic that ends with none of the six suffixes that
    carry an action (the two preset echo topics included, then) has no
    effect at all and changes no field. *)
Theorem message_without_action (p : Platform) (topic msg : jsstring) :
  (forall s, In s acting_suffixes -> endsWith topic s = false) ->
  onMqttMessage topic msg p = (Normal tt, p, []).
Proof.
  intros H. unfold onMqttMessage.
  repeat match goal with
         | |- context [endsWith topic ?s] => rewrite (H s) by (cbn; auto 10)
         end.
  destruct (endsWith topic (js "FanSpeedControlCapability/preset")); [reflexivity|].
  destruct (endsWith topic (js "WaterUsageControlCapability/preset")); reflexivity.
Qed.

Lemma message_without_action_witness :
  onMqttMessage (js "valetudo/robot/FanSpeedControlCapability/preset")
                (js "max") sample = (Normal tt, sample, [])
  /\ onMqttMessage (js "valetudo/other/BatteryStateAttribute/level/raw")
                   (js "50") sample = (Normal tt, sample, []).
Proof.
  split.
  - apply (message_without_action sample
             (js "valetudo/robot/FanSpeedControlCapability/preset") (js "max")).
    intros s Hs. cbn in Hs.
    repeat (destruct Hs as [<-|Hs]; [vm_compute; reflexivity|]). contradiction.
  - apply (message_without_action sample
             (js "valetudo/other/BatteryStateAttribute/level/raw") (js "50")).
    intros s Hs. cbn in Hs.
    repeat (destruct Hs as [<-|Hs]; [vm_compute; reflexivity|]). contradiction.
Defined.

(** X4.  The adapter does not react to its own publications: a message on
    any topic it publishes on, with any payload, is ignored. *)
Theorem own_publications_ignored (p : Platform) (suffix msg : jsstring) :
  In suffix outbound_suffixes ->
  onMqttMessage (topic_of p suffix) msg p = (Normal tt, p, []).
Proof.
  intros Hin. cbn in Hin.
  repeat (destruct Hin as [<-|Hin];
          [match goal with
           | |- onMqttMessage (topic_of _ ?s) _ _ = _ =>
               pose proof (endsWith_topic_of p s) as H; no_dispatch H; reflexivity
           end|]).
  contradiction.
Qed.

Lemma own_publications_ignored_witness :
  In (js "WaterUsageControlCapability/preset/set") outbound_suffixes
  /\ onMqttMessage (js "valetudo/robot/WaterUsageControlCapability/preset/set")
                   (js "off") sample = (Normal tt, sample, []).
Proof.
  split; [cbn; auto 10|].
  apply (own_publications_ignored sample
           (js "WaterUsageControlCapability/preset/set") (js "off")).
  cbn; auto 10.
Defined.

(** X5.  No topic matches two of the eight suffixes, so the order of the
    tests in [onMqttMessage] decides nothing. *)
Theorem inbound_suffixes_exclusive (topic s1 s2 : jsstring) :
  In s1 inbound_suffixes -> In s2 inbound_suffixes ->
  endsWith topic s1 = true -> endsWith topic s2 = true ->
  s1 = s2.
Proof.
  intros H1 H2 E1 E2. cbn in H1, H2.
  repeat (destruct H1 as [<-|H1]; [|]); try contradiction;
    repeat (destruct H2 as [<-|H2]; [|]); try contradiction;
    try reflexivity;
    rewrite (endsWith_other _ _ _ E1) in E2 by (vm_compute; reflexivity);
    discriminate E2.
Qed.

Lemma inbound_suffixes_exclusive_witness :
  In (js "MapData/segments") inbound_suffixes
  /\ endsWith segments_topic (js "MapData/segments") = true
  /\ js "MapData/segments" = js "MapData/segments".
Proof.
  split; [cbn; auto 10|]. split; [vm_compute; reflexivity|].
  apply (inbound_suffixes_exclusive segments_topic);
    try (cbn; auto 10); vm_compute; reflexivity.
Defined.

Lemma watertank_unfold (p : Platform) (topic msg : jsstring) :
  endsWith topic (js "AttachmentStateAttribute/watertank") = true ->
  onMqttMessage topic msg p = (Normal tt, set_watertank (attached msg) p, []).
Proof.
  intros H. dispatch H. reflexivity.
Qed.

Lemma attached_iff (msg : jsstring) :
  attached msg = true <-> msg = js "true" \/ msg = js "1".
Proof.
  unfold attached. rewrite orb_true_iff, !streq_true. reflexivity.
Qed.

(** X6.  On a topic ending with [BatteryStateAttribute/status] the payload
    [charging] sets the operational state to Charging; any other payload
    (a different case, padding, another status) does nothing. *)
Theorem battery_status_message (p : Platform) (topic msg : jsstring) :
  endsWith topic (js "BatteryStateAttribute/status") = true ->
  (msg = js "charging" ->
   onMqttMessage topic msg p =
     (Normal tt, p, [Device (updateOperationalState Charging)]))
  /\ (msg <> js "charging" -> onMqttMessage topic msg p = (Normal tt, p, [])).
Proof.
  intros H. dispatch H. split.
  - intros ->. rewrite streq_refl. reflexivity.
  - intros Hne. apply streq_false in Hne. rewrite Hne. reflexivity.
Qed.

Lemma battery_status_message_witness :
  endsWith (js "valetudo/robot/BatteryStateAttribute/status")
           (js "BatteryStateAttribute/status") = true
  /\ onMqttMessage (js "valetudo/robot/BatteryStateAttribute/status")
                   (js "charging") sample =
       (Normal tt, sample, [Device (updateOperationalState Charging)])
  /\ onMqttMessage (js "valetudo/robot/BatteryStateAttribute/status")
                   (js "Charging") sample = (Normal tt, sample, []).
Proof.
  split; [vm_compute; reflexivity|]. split.
  - apply (battery_status_message sample
             (js "valetudo/robot/BatteryStateAttribute/status") (js "charging"));
      vm_compute; reflexivity.
  - apply (battery_status_message sample
             (js "valetudo/robot/BatteryStateAttribute/status") (js "Charging"));
      [vm_compute; reflexivity|].
    intros E; vm_compute in E; discriminate E.
Defined.

(** X7.  A message on a topic ending with [AttachmentStateAttribute/watertank]
    has no outward effect and touches only the flag, which becomes true
    exactly when the payload is [true] or [1], whatever it was before. *)
Theorem watertank_message (p : Platform) (topic msg : jsstring) :
  endsWith topic (js "AttachmentStateAttribute/watertank") = true ->
  exists b,
    onMqttMessage topic msg p =
      (Normal tt, mkPlatform (cfg p) (base p) b (segments p), [])
    /\ (b = true <-> msg = js "true" \/ msg = js "1").
Proof.
  intros H. exists (attached msg). split.
  - now rewrite watertank_unfold.
  - apply attached_iff.
Qed.

Lemma watertank_message_witness :
  endsWith (js "valetudo/robot/AttachmentStateAttribute/watertank")
           (js "AttachmentStateAttribute/watertank") = true
  /\ exists b,
       onMqttMessage (js "valetudo/robot/AttachmentStateAttribute/watertank")
                     (js "TRUE") (set_watertank true sample) =
         (Normal tt, mkPlatform (cfg sample) (base sample) b (segments sample), [])
       /\ (b = true <-> js "TRUE" = js "true" \/ js "TRUE" = js "1").
Proof.
  split; [vm_compute; reflexivity|].
  apply (watertank_message (set_watertank true sample)
           (js "valetudo/robot/AttachmentStateAttribute/watertank") (js "TRUE")).
  vm_compute; reflexivity.
Defined.

(** X8.  The watertank message gates mop mode: right after a watertank
    message, applying clean mode Mop publishes its presets and logs nothing
    when the payload was [true] or [1], and publishes nothing and logs the
    refusal for every other payload. *)
Theorem watertank_message_gates_mop (p : Platform) (topic msg : jsstring) :
  endsWith topic (js "AttachmentStateAttribute/watertank") = true ->
  let p' := snd (fst (onMqttMessage topic msg p)) in
  (msg = js "true" \/ msg = js "1" ->
   applyCleanMode Mop p' =
     (Normal tt, p',
      preset p (js "OperationModeControlCapability/preset/set")
             (rvc_field operationModePresetMop (cfg p))
      ++ preset p (js "FanSpeedControlCapability/preset/set")
                (rvc_field fanPresetForMop (cfg p))
      ++ preset p (js "WaterUsageControlCapability/preset/set")
                (Some (nullish (rvc_field waterPresetForMop (cfg p)) (js "medium")))))
  /\ (msg <> js "true" -> msg <> js "1" ->
      applyCleanMode Mop p' =
        (Normal tt, p',
         [Log Info (js "Mop selected but watertank is not attached; ignoring")])).
Proof.
  intros H. rewrite (watertank_unfold p topic msg H). cbn [fst snd].
  split.
  - intros Hm. apply attached_iff in Hm.
    rewrite mop_unfold. cbn [watertank set_watertank]. rewrite Hm. reflexivity.
  - intros H1 H2. rewrite mop_unfold. cbn [watertank set_watertank].
    unfold attached. apply streq_false in H1, H2. rewrite H1, H2. reflexivity.
Qed.

Lemma watertank_message_gates_mop_witness :
  endsWith (js "valetudo/robot/AttachmentStateAttribute/watertank")
           (js "AttachmentStateAttribute/watertank") = true
  /\ applyCleanMode Mop
       (snd (fst (onMqttMessage
                    (js "valetudo/robot/AttachmentStateAttribute/watertank")
                    (js "1") sample))) =
       (Normal tt, set_watertank true sample,
        [Publish (js "valetudo/robot/WaterUsageControlCapability/preset/set")
                 (js "medium")]).
Proof.
  split; [vm_compute; reflexivity|].
  apply (proj1 (watertank_message_gates_mop sample
                  (js "valetudo/robot/AttachmentStateAttribute/watertank") (js "1")
                  ltac:(vm_compute; reflexivity))).
  right; reflexivity.
Defined.

(** X9.  A freshly constructed platform refuses mop mode under every
    configuration, also one whose [defaultCleanMode] is Mop and which the
    constructor therefore announces to the device as being in mop mode. *)
Theorem fresh_platform_refuses_mop (config : PluginConfig) :
  applyCleanMode Mop (fst (initializePlugin config)) =
    (Normal tt, fst (initializePlugin config),
     [Log Info (js "Mop selected but watertank is not attached; ignoring")])
  /\ (rvc_field defaultCleanMode config = Some Mop ->
      In (Device (updateCleanMode Mop)) (snd (initializePlugin config))).
Proof.
  split.
  - rewrite mop_unfold. reflexivity.
  - intros H. unfold initializePlugin, constructor. cbn [snd].
    rewrite H. cbn. auto.
Qed.

Lemma fresh_platform_refuses_mop_witness :
  rvc_field defaultCleanMode
    (mkConfig None (mqtt sample_config)
       (Some (mkRvc None (Some Mop) None None None None None None))) = Some Mop
  /\ In (Device (updateCleanMode Mop))
        (snd (initializePlugin
                (mkConfig None (mqtt sample_config)
                   (Some (mkRvc None (Some Mop) None None None None None None))))).
Proof.
  split; [reflexivity|].
  apply (proj2 (fresh_platform_refuses_mop
                  (mkConfig None (mqtt sample_config)
                     (Some (mkRvc None (Some Mop) None None None None None None))))).
  reflexivity.
Defined.

(** X10.  On connect the adapter subscribes once to each of the eight
    topics its message handler tests for, under its base topic, all
    different, and changes nothing else; a message on each subscribed topic
    reaches the test of its own suffix. *)
Theorem connect_subscriptions (p : Platform) :
  onMqttConnect p =
    (Normal tt, p, List.map (fun s => Subscribe (topic_of p s)) inbound_suffixes)
  /\ NoDup (List.map (topic_of p) inbound_suffixes)
  /\ Forall (fun s => endsWith (topic_of p s) s = true) inbound_suffixes.
Proof.
  split; [reflexivity|]. split.
  - assert (Hs : NoDup inbound_suffixes).
    { unfold inbound_suffixes.
      repeat (constructor;
              [cbn; intros H;
               repeat (destruct H as [H|H]; [vm_compute in H; discriminate H|]);
               exact H|]).
      constructor. }
    revert Hs. generalize inbound_suffixes.
    induction l as [|s l IH]; intros Hs; cbn; constructor.
    + inversion_clear Hs as [|? ? Hn _]. intros Hin.
      apply in_map_iff in Hin as (s' & E & Hin).
      apply topic_of_inj in E. subst. contradiction.
    + apply IH. now inversion Hs.
  - apply Forall_forall. intros s _. apply endsWith_topic_of.
Qed.

Lemma preset_inv (p : Platform) (s : jsstring) (o : option jsstring) (e : Effect) :
  In e (preset p s o) -> exists v, e = Publish (topic_of p s) v /\ v <> [].
Proof.
  destruct o as [[|c v]|]; cbn; try contradiction.
  intros [<-|[]]. exists (c :: v). split; [reflexivity|discriminate].
Qed.

Lemma preset_length (p : Platform) (s : jsstring) (o : option jsstring) :
  (List.length (preset p s o) <= 1)%nat.
Proof.
  destruct o as [[|c v]|]; cbn; lia.
Qed.

Lemma preset_effects (p : Platform) (s : jsstring) (o : option jsstring) :
  In s preset_suffixes -> Forall (clean_mode_effect p) (preset p s o).
Proof.
  intros Hs. apply Forall_forall. intros e He.
  apply preset_inv in He as (v & -> & Hv). left. eauto.
Qed.

Lemma clean_mode_trace (p : Platform) (mode : CleanMode) :
  exists tr,
    applyCleanMode mode p = (Normal tt, p, tr)
    /\ Forall (clean_mode_effect p) tr
    /\ (List.length tr <= 3)%nat.
Proof.
  destruct mode.
  - rewrite vacuum_unfold. eexists. split; [reflexivity|]. split.
    + apply Forall_app; split; [apply preset_effects; cbn; auto|].
      apply Forall_app; split; [apply preset_effects; cbn; auto|].
      constructor; [|constructor].
      left. exists (js "WaterUsageControlCapability/preset/set"), (js "off").
      repeat split; [discriminate|cbn; auto].
    + rewrite !length_app.
      pose proof (preset_length p (js "OperationModeControlCapability/preset/set")
                    (rvc_field operationModePresetVacuum (cfg p))).
      pose proof (preset_length p (js "FanSpeedControlCapability/preset/set")
                    (Some (nullish (rvc_field fanPresetForVacuum (cfg p))
                                   (js "standard")))).
      cbn [List.length]. lia.
  - rewrite mop_unfold. destruct (watertank p).
    + eexists. split; [reflexivity|]. split.
      * apply Forall_app; split; [apply preset_effects; cbn; auto|].
        apply Forall_app; split; apply preset_effects; cbn; auto.
      * rewrite !length_app.
        pose proof (preset_length p (js "OperationModeControlCapability/preset/set")
                      (rvc_field operationModePresetMop (cfg p))).
        pose proof (preset_length p (js "FanSpeedControlCapability/preset/set")
                      (rvc_field fanPresetForMop (cfg p))).
        pose proof (preset_length p (js "WaterUsageControlCapability/preset/set")
                      (Some (nullish (rvc_field waterPresetForMop (cfg p))
                                     (js "medium")))).
        lia.
    + eexists. split; [reflexivity|]. split.
      * constructor; [right; reflexivity|constructor].
      * cbn. lia.
Qed.

Lemma clean_mode_no_device_call (p : Platform) (tr : list Effect) :
  Forall (clean_mode_effect p) tr -> device_calls tr = [].
Proof.
  unfold device_calls.
  induction 1 as [|e tr He _ IH]; [reflexivity|].
  cbn [flat_map]. rewrite IH.
  destruct He as [(s & v & -> & _)| ->]; reflexivity.
Qed.

(** X11.  Applying a clean mode never fails, never changes a field and
    never calls the device; it publishes at most three messages, none with
    an empty payload, and only on the three preset topics. *)
Theorem apply_clean_mode_frame (p : Platform) (mode : CleanMode) :
  let '(r, p', tr) := applyCleanMode mode p in
  r = Normal tt
  /\ p' = p
  /\ device_calls tr = []
  /\ (List.length tr <= 3)%nat
  /\ (forall t v, In (Publish t v) tr ->
      v <> []
      /\ (t = topic_of p (js "OperationModeControlCapability/preset/set")
          \/ t = topic_of p (js "FanSpeedControlCapability/preset/set")
          \/ t = topic_of p (js "WaterUsageControlCapability/preset/set"))).
Proof.
  destruct (clean_mode_trace p mode) as (tr & -> & Hall & Hlen).
  repeat split; auto.
  - now apply clean_mode_no_device_call with (p := p).
  - rewrite Forall_forall in Hall. specialize (Hall _ H).
    destruct Hall as [(s & v' & E & Hv & _)|E]; [|discriminate E].
    now inversion E; subst.
  - rewrite Forall_forall in Hall. specialize (Hall _ H).
    destruct Hall as [(s & v' & E & _ & Hs)|E]; [|discriminate E].
    inversion E; subst. cbn in Hs.
    destruct Hs as [<-|[<-|[<-|[]]]]; auto.
Qed.

Lemma apply_clean_mode_frame_witness :
  let '(r, p', tr) := applyCleanMode Mop (set_watertank true sample) in
  r = Normal tt
  /\ p' = set_watertank true sample
  /\ device_calls tr = []
  /\ (List.length tr <= 3)%nat
  /\ (forall t v, In (Publish t v) tr ->
      v <> []
      /\ (t = topic_of (set_watertank true sample)
                       (js "OperationModeControlCapability/preset/set")
          \/ t = topic_of (set_watertank true sample)
                          (js "FanSpeedControlCapability/preset/set")
          \/ t = topic_of (set_watertank true sample)
                          (js "WaterUsageControlCapability/preset/set"))).
Proof.
  exact (apply_clean_mode_frame (set_watertank true sample) Mop).
Defined.

(** ** Sequences of events *)

(** The shape of every outcome of every handler. *)
Lemma handle_shape (ev : Event) (p : Platform) :
  exists b v tr,
    handle ev p = (Normal tt, mkPlatform (cfg p) (base p) b v, tr)
    /\ (is_watertank_message ev = false -> b = watertank p)
    /\ (is_parsed_segments_message ev = false -> v = segments p)
    /\ (forall e t, In e tr -> broker_topic e = Some t ->
        exists s, t = topic_of p s).
Proof.
  assert (Hkeep : forall (m : M unit) tr,
             m p = (Normal tt, p, tr) ->
             (forall e t, In e tr -> broker_topic e = Some t ->
                          exists s, t = topic_of p s) ->
             exists b v tr',
               m p = (Normal tt, mkPlatform (cfg p) (base p) b v, tr')
               /\ (is_watertank_message ev = false -> b = watertank p)
               /\ (is_parsed_segments_message ev = false -> v = segments p)
               /\ (forall e t, In e tr' -> broker_topic e = Some t ->
                               exists s, t = topic_of p s)).
  { intros m tr E Ht. exists (watertank p), (segments p), tr.
    destruct p; cbn in *. auto. }
  assert (Hone : forall s v e t,
             In e [Publish (topic_of p s) v] -> broker_topic e = Some t ->
             exists s', t = topic_of p s').
  { intros s v e t [<-|[]] E. inversion E. eauto. }
  destruct ev as [|topic msg|target| | | |mode|areaIds]; cbn [handle].
  - eapply Hkeep; [reflexivity|].
    intros e t Hin E. cbn in Hin.
    repeat (destruct Hin as [<-|Hin]; [inversion E; eexists; reflexivity|]).
    contradiction.
  - destruct (message_shape p topic msg) as (b & v & tr & E & _ & Hi & Hw & Hs).
    exists b, v, tr. repeat split; auto.
    + cbn [is_parsed_segments_message].
      destruct (endsWith topic (js "MapData/segments")) eqn:Ht; [|auto].
      rewrite (segments_message_unfold p topic msg Ht) in E.
      destruct (JSON_parse msg); [discriminate|].
      intros _. inversion E. reflexivity.
    + intros e t Hin Ht. rewrite forallb_forall in Hi. specialize (Hi e Hin).
      destruct e; cbn in Hi, Ht; discriminate.
  - eapply Hkeep; [apply publish_run|apply Hone].
  - eapply Hkeep; [apply publish_run|apply Hone].
  - eapply Hkeep; [apply publish_run|apply Hone].
  - eapply Hkeep; [apply publish_run|apply Hone].
  - unfold onCleanModeChange.
    destruct (clean_mode_trace p mode) as (tr & E & Hall & _).
    eapply Hkeep; [exact E|].
    intros e t Hin Ht. rewrite Forall_forall in Hall.
    destruct (Hall e Hin) as [(s & v & -> & _)| ->]; [|discriminate Ht].
    inversion Ht. eauto.
  - destruct areaIds as [|ids]; cbn [cleanServiceAreas].
    + eapply Hkeep; [reflexivity|]. intros e t [].
    + destruct (negb (Array_isArray ids) || negb (0 <? Array_length ids)%nat).
      * eapply Hkeep; [reflexivity|]. intros e t [].
      * eapply Hkeep; [reflexivity|].
        intros e t [<-|[<-|[]]] E; [|discriminate E].
        injection E as <-.
        exists (js "MapSegmentationCapability/clean/set"). reflexivity.
Qed.

Lemma run_app (a b : list Event) (p : Platform) :
  run (a ++ b) p =
    (fst (run b (fst (run a p))), snd (run a p) ++ snd (run b (fst (run a p)))).
Proof.
  revert p. induction a as [|ev a IH]; intros p; cbn [run app].
  - cbn. now destruct (run b p).
  - destruct (handle ev p) as [[r p1] t1]. rewrite IH.
    destruct (run a p1) as [p2 t2]. cbn [fst snd].
    now rewrite app_assoc.
Qed.

Lemma run_keeps_base (evs : list Event) (p : Platform) :
  cfg (fst (run evs p)) = cfg p /\ base (fst (run evs p)) = base p.
Proof.
  revert p. induction evs as [|ev evs IH]; intros p; cbn [run]; [auto|].
  destruct (handle_shape ev p) as (b & v & tr & E & _). rewrite E.
  specialize (IH (mkPlatform (cfg p) (base p) b v)).
  destruct (run evs _) as [p2 t2]. exact IH.
Qed.

(** X12.  Every handler (connect, message, the five command callbacks,
    [cleanServiceAreas]) returns normally on every input, and no sequence of
    events ever changes the configuration or the base topic. *)
Theorem handlers_return_and_keep_configuration (evs : list Event) (p : Platform) :
  (forall ev q, fst (fst (handle ev q)) = Normal tt)
  /\ cfg (fst (run evs p)) = cfg p
  /\ base (fst (run evs p)) = base p.
Proof.
  split; [|apply run_keeps_base].
  intros ev q. destruct (handle_shape ev q) as (b & v & tr & E & _).
  now rewrite E.
Qed.

Lemma run_topics_under_base (evs : list Event) (p : Platform)
      (e : Effect) (t : jsstring) :
  In e (snd (run evs p)) ->
  broker_topic e = Some t ->
  exists suffix, t = base p ++ js "/" ++ suffix.
Proof.
  revert p. induction evs as [|ev evs IH]; intros p; cbn [run]; [intros []|].
  destruct (handle_shape ev p) as (b & v & tr & E & _ & _ & Ht). rewrite E.
  specialize (IH (mkPlatform (cfg p) (base p) b v)).
  destruct (run evs _) as [p2 t2]. cbn [snd] in *.
  intros Hin Hb. apply in_app_or in Hin as [Hin|Hin].
  - exact (Ht e t Hin Hb).
  - exact (IH Hin Hb).
Qed.

(** X13.  For a platform built by the constructor from any configuration,
    through any sequence of events, every topic the adapter subscribes to
    or publishes on is [<topicPrefix>/<identifier>/<suffix>] with the
    prefix and identifier of that configuration; the constructor itself
    addresses no topic. *)
Theorem broker_traffic_under_base (config : PluginConfig) (evs : list Event)
        (e : Effect) (t : jsstring) :
  broker_topic e = Some t ->
  (In e (snd (initializePlugin config)) -> False)
  /\ (In e (snd (run evs (fst (initializePlugin config)))) ->
      exists suffix,
        t = topicPrefix (mqtt config) ++ js "/" ++ identifier (mqtt config)
            ++ js "/" ++ suffix).
Proof.
  intros Hb. split.
  - unfold initializePlugin, constructor. cbn [snd In].
    intros [<-|[<-|[<-|[<-|[]]]]]; discriminate Hb.
  - intros Hin.
    destruct (run_topics_under_base evs _ e t Hin Hb) as [suffix ->].
    exists suffix. unfold initializePlugin, constructor. cbn [fst base].
    now rewrite <- !app_assoc.
Qed.

Lemma broker_traffic_under_base_witness :
  broker_topic (Publish (js "valetudo/robot/BasicControlCapability/operation/set")
                        (js "HOME"))
  = Some (js "valetudo/robot/BasicControlCapability/operation/set")
  /\ In (Publish (js "valetudo/robot/BasicControlCapability/operation/set") (js "HOME"))
        (snd (run [MqttConnect; Pause; Dock] (fst (initializePlugin sample_config))))
  /\ exists suffix,
       js "valetudo/robot/BasicControlCapability/operation/set" =
       topicPrefix (mqtt sample_config) ++ js "/" ++ identifier (mqtt sample_config)
       ++ js "/" ++ suffix.
Proof.
  assert (H : In (Publish (js "valetudo/robot/BasicControlCapability/operation/set")
                          (js "HOME"))
                 (snd (run [MqttConnect; Pause; Dock]
                           (fst (initializePlugin sample_config))))).
  { vm_compute. auto 12. }
  split; [reflexivity|]. split; [exact H|].
  exact (proj2 (broker_traffic_under_base sample_config [MqttConnect; Pause; Dock]
                  (Publish (js "valetudo/robot/BasicControlCapability/operation/set")
                           (js "HOME"))
                  (js "valetudo/robot/BasicControlCapability/operation/set")
                  eq_refl) H).
Defined.

Lemma run_keeps_watertank (evs : list Event) (p : Platform) :
  forallb (fun ev => negb (is_watertank_message ev)) evs = true ->
  watertank (fst (run evs p)) = watertank p.
Proof.
  revert p. induction evs as [|ev evs IH]; intros p; cbn [run forallb]; [auto|].
  intros H. apply andb_true_iff in H as [Hev Hevs].
  apply negb_true_iff in Hev.
  destruct (handle_shape ev p) as (b & v & tr & E & Hw & _). rewrite E.
  specialize (IH (mkPlatform (cfg p) (base p) b v) Hevs).
  destruct (run evs _) as [p2 t2]. cbn [fst watertank] in *.
  rewrite IH. auto.
Qed.

Lemma run_keeps_segments (evs : list Event) (p : Platform) :
  forallb (fun ev => negb (is_parsed_segments_message ev)) evs = true ->
  segments (fst (run evs p)) = segments p.
Proof.
  revert p. induction evs as [|ev evs IH]; intros p; cbn [run forallb]; [auto|].
  intros H. apply andb_true_iff in H as [Hev Hevs].
  apply negb_true_iff in Hev.
  destruct (handle_shape ev p) as (b & v & tr & E & _ & Hs & _). rewrite E.
  specialize (IH (mkPlatform (cfg p) (base p) b v) Hevs).
  destruct (run evs _) as [p2 t2]. cbn [fst segments] in *.
  rewrite IH. auto.
Qed.

(** X14.  After any sequence of events the watertank flag says what the
    last watertank message said (true for the payloads [true] and [1], false
    for any other), whatever happened before it and whatever other events
    came after it. *)
Theorem watertank_reflects_last_message
        (before after : list Event) (topic msg : jsstring) (p : Platform) :
  endsWith topic (js "AttachmentStateAttribute/watertank") = true ->
  forallb (fun ev => negb (is_watertank_message ev)) after = true ->
  watertank (fst (run (before ++ MqttMessage topic msg :: after) p)) = attached msg.
Proof.
  intros Ht Hafter.
  rewrite run_app. cbn [fst]. cbn [run handle].
  rewrite (watertank_unfold _ topic msg Ht).
  pose proof (run_keeps_watertank after
                (set_watertank (attached msg) (fst (run before p))) Hafter) as K.
  destruct (run after _) as [p2 t2]. exact K.
Qed.

Lemma watertank_reflects_last_message_witness :
  endsWith (js "valetudo/robot/AttachmentStateAttribute/watertank")
           (js "AttachmentStateAttribute/watertank") = true
  /\ watertank
       (fst (run ([MqttMessage (js "valetudo/robot/AttachmentStateAttribute/watertank")
                               (js "true")]
                  ++ MqttMessage (js "valetudo/robot/AttachmentStateAttribute/watertank")
                                 (js "false")
                  :: [CleanModeChange Mop; MqttMessage segments_topic (js "{}")])
                 sample)) = false.
Proof.
  split; [vm_compute; reflexivity|].
  apply (watertank_reflects_last_message
           [MqttMessage (js "valetudo/robot/AttachmentStateAttribute/watertank")
                        (js "true")]
           [CleanModeChange Mop; MqttMessage segments_topic (js "{}")]
           (js "valetudo/robot/AttachmentStateAttribute/watertank") (js "false") sample);
    vm_compute; reflexivity.
Defined.

(** X15.  After any sequence of events the segment table is the value of
    the last segments message whose payload parsed: later messages on other
    topics, later commands and later segments messages with invalid JSON
    leave it in place, and nothing of an earlier table is merged into it. *)
Theorem segments_reflect_last_parsed_message
        (before after : list Event) (topic msg : jsstring) (v : Json) (p : Platform) :
  endsWith topic (js "MapData/segments") = true ->
  JSON_parse msg = Normal v ->
  forallb (fun ev => negb (is_parsed_segments_message ev)) after = true ->
  segments (fst (run (before ++ MqttMessage topic msg :: after) p)) = v.
Proof.
  intros Ht Hparse Hafter.
  rewrite run_app. cbn [fst]. cbn [run handle].
  rewrite (segments_message_unfold _ topic msg Ht), Hparse.
  set (q := fst (run before p)).
  assert (E : exists tr,
             (if derives_areas (cfg q)
              then match Object_entries v with
                   | Normal entries =>
                       (Normal tt, set_segments v q,
                        [Device (updateServiceAreas (areas_of entries))])
                   | Throw e => (Normal tt, set_segments v q, [segments_warning e])
                   end
              else (Normal tt, set_segments v q, []))
             = (Normal tt, set_segments v q, tr)).
  { destruct (derives_areas (cfg q)); [destruct (Object_entries v)|]; eauto. }
  destruct E as [tr ->].
  pose proof (run_keeps_segments after (set_segments v q) Hafter) as K.
  destruct (run after _) as [p2 t2]. exact K.
Qed.

Lemma segments_reflect_last_parsed_message_witness :
  endsWith segments_topic (js "MapData/segments") = true
  /\ JSON_parse (json_text "{'7':'Bath'}") = Normal (JObject [(js "7", JString (js "Bath"))])
  /\ segments
       (fst (run ([MqttMessage segments_topic (json_text "{'1':'Kitchen','2':'Hall'}")]
                  ++ MqttMessage segments_topic (json_text "{'7':'Bath'}")
                  :: [MqttMessage segments_topic (js "{oops"); Dock])
                 sample)) = JObject [(js "7", JString (js "Bath"))].
Proof.
  split; [vm_compute; reflexivity|]. split; [vm_compute; reflexivity|].
  apply (segments_reflect_last_parsed_message
           [MqttMessage segments_topic (json_text "{'1':'Kitchen','2':'Hall'}")]
           [MqttMessage segments_topic (js "{oops"); Dock]
           segments_topic (json_text "{'7':'Bath'}")
           (JObject [(js "7", JString (js "Bath"))]) sample);
    vm_compute; reflexivity.
Defined.

Lemma published_on_app (p : Platform) (s : jsstring) (a b : list Effect) :
  published_on p s (a ++ b) = published_on p s a ++ published_on p s b.
Proof. unfold published_on. apply flat_map_app. Qed.

Lemma published_on_same_base (p q : Platform) (s : jsstring) (tr : list Effect) :
  base p = base q -> published_on p s tr = published_on q s tr.
Proof.
  intros E. unfold published_on, topic_of. now rewrite E.
Qed.

Lemma published_on_inbound (p : Platform) (s : jsstring) (tr : list Effect) :
  forallb inbound_effect tr = true -> published_on p s tr = [].
Proof.
  induction tr as [|e tr IH]; [reflexivity|].
  cbn [forallb]. intros H. apply andb_true_iff in H as [He Htr].
  unfold published_on in *. cbn [flat_map]. rewrite (IH Htr).
  destruct e; try discriminate He; reflexivity.
Qed.

(** What one event publishes on the water-usage topic while no tank is
    attached. *)
Lemma handle_water_usage (ev : Event) (p : Platform) :
  watertank p = false ->
  Forall (fun v => v = js "off")
         (published_on p (js "WaterUsageControlCapability/preset/set")
                       (snd (handle ev p))).
Proof.
  intros Hw.
  destruct ev as [|topic msg|target| | | |mode|areaIds]; cbn [handle].
  - cbn. constructor.
  - destruct (message_shape p topic msg) as (b & v & tr & E & _ & Hi & _).
    rewrite E. cbn [snd]. rewrite published_on_inbound by assumption. constructor.
  - unfold onRunModeChange. rewrite publish_run. cbn [snd].
    rewrite published_on_other by (vm_compute; reflexivity). constructor.
  - unfold onPause. rewrite publish_run. cbn [snd].
    rewrite published_on_other by (vm_compute; reflexivity). constructor.
  - unfold onResume. rewrite publish_run. cbn [snd].
    rewrite published_on_other by (vm_compute; reflexivity). constructor.
  - unfold onDock. rewrite publish_run. cbn [snd].
    rewrite published_on_other by (vm_compute; reflexivity). constructor.
  - unfold onCleanModeChange. destruct mode.
    + rewrite vacuum_unfold. cbn [snd].
      rewrite !published_on_preset_other by (vm_compute; reflexivity).
      rewrite published_on_same. repeat constructor.
    + rewrite mop_unfold, Hw. cbn. constructor.
  - destruct areaIds as [|ids]; cbn [cleanServiceAreas]; [constructor|].
    destruct (negb (Array_isArray ids) || negb (0 <? Array_length ids)%nat);
      [constructor|].
    unfold bind. rewrite publish_run. cbn [snd emit app].
    rewrite published_on_other by (vm_compute; reflexivity). constructor.
Qed.

(** X16.  As long as no watertank message arrives, an instance whose flag
    is false (a fresh one, for example) never publishes a water-usage preset
    other than [off], whatever sequence of commands and other messages it
    handles: mop presets cannot reach the robot without an attached tank. *)
Theorem water_usage_off_without_tank (evs : list Event) (p : Platform) :
  watertank p = false ->
  forallb (fun ev => negb (is_watertank_message ev)) evs = true ->
  Forall (fun v => v = js "off")
         (published_on p (js "WaterUsageControlCapability/preset/set")
                       (snd (run evs p))).
Proof.
  revert p. induction evs as [|ev evs IH]; intros p Hw Hevs; cbn [run].
  - constructor.
  - cbn [forallb] in Hevs. apply andb_true_iff in Hevs as [Hev Hevs].
    apply negb_true_iff in Hev.
    pose proof (handle_water_usage ev p Hw) as Hhead.
    destruct (handle_shape ev p) as (b & v & tr & E & Hb & _).
    rewrite E in Hhead |- *. cbn [snd] in Hhead.
    specialize (Hb Hev). subst b.
    specialize (IH (mkPlatform (cfg p) (base p) (watertank p) v) Hw Hevs).
    rewrite (published_on_same_base _ p) in IH by reflexivity.
    destruct (run evs _) as [p2 t2]. cbn [snd] in *.
    rewrite published_on_app. apply Forall_app. split; assumption.
Qed.

Lemma water_usage_off_without_tank_witness :
  watertank sample = false
  /\ Forall (fun v => v = js "off")
       (published_on sample (js "WaterUsageControlCapability/preset/set")
          (snd (run [CleanModeChange Mop; CleanModeChange Vacuum;
                     MqttMessage segments_topic (js "null"); CleanModeChange Mop]
                    sample))).
Proof.
  split; [reflexivity|].
  apply (water_usage_off_without_tank
           [CleanModeChange Mop; CleanModeChange Vacuum;
            MqttMessage segments_topic (js "null"); CleanModeChange Mop] sample);
    vm_compute; reflexivity.
Defined.

(* ------------------------------------------------------------------ *)
(** * Payload conversions *)

Lemma trim_start_padding (a s : jsstring) :
  forallb isStrWhiteSpaceChar a = true -> trim_start (a ++ s) = trim_start s.
Proof.
  induction a as [|c a IH]; cbn [forallb app trim_start]; [reflexivity|].
  intros H. apply andb_true_iff in H as [Hc Ha]. rewrite Hc. auto.
Qed.

Lemma trim_start_nil_blank (s : jsstring) :
  trim_start s = [] -> forallb isStrWhiteSpaceChar s = true.
Proof.
  induction s as [|c s IH]; cbn [forallb trim_start]; [reflexivity|].
  destruct (isStrWhiteSpaceChar c); [auto|discriminate].
Qed.

Lemma trim_start_keeps_tail (s b : jsstring) :
  trim_start s <> [] -> trim_start (s ++ b) = trim_start s ++ b.
Proof.
  induction s as [|c s IH]; cbn [app trim_start]; [contradiction|].
  destruct (isStrWhiteSpaceChar c); auto.
Qed.

Lemma forallb_rev_true {A} (f : A -> bool) (l : list A) :
  forallb f l = true -> forallb f (rev l) = true.
Proof.
  rewrite !forallb_forall. intros H x Hx. apply H. now apply in_rev.
Qed.

Lemma trim_padding (a s b : jsstring) :
  forallb isStrWhiteSpaceChar a = true ->
  forallb isStrWhiteSpaceChar b = true ->
  trim (a ++ s ++ b) = trim s.
Proof.
  intros Ha Hb. unfold trim. rewrite (trim_start_padding a _ Ha).
  destruct (trim_start s) as [|c t] eqn:E.
  - rewrite (trim_start_blank (s ++ b)); [reflexivity|].
    rewrite forallb_app, (trim_start_nil_blank s E). exact Hb.
  - rewrite trim_start_keeps_tail by (rewrite E; discriminate).
    rewrite E, rev_app_distr.
    now rewrite (trim_start_padding (rev b) _ (forallb_rev_true _ _ Hb)).
Qed.

(** X17.  White space around a battery-level payload (a trailing newline,
    leading blanks) is ignored: the padded payload is handled exactly as the
    bare one. *)
Theorem battery_level_ignores_padding (p : Platform) (topic a s b : jsstring) :
  endsWith topic (js "BatteryStateAttribute/level") = true ->
  forallb isStrWhiteSpaceChar a = true ->
  forallb isStrWhiteSpaceChar b = true ->
  Number (a ++ s ++ b) = Number s
  /\ onMqttMessage topic (a ++ s ++ b) p = onMqttMessage topic s p.
Proof.
  intros H Ha Hb.
  assert (E : Number (a ++ s ++ b) = Number s).
  { unfold Number, StringToNumber. now rewrite trim_padding. }
  split; [exact E|].
  rewrite !battery_level_unfold by assumption. now rewrite E.
Qed.

Lemma battery_level_ignores_padding_witness :
  endsWith (js "valetudo/robot/BatteryStateAttribute/level")
           (js "BatteryStateAttribute/level") = true
  /\ onMqttMessage (js "valetudo/robot/BatteryStateAttribute/level")
                   ([32] ++ js "87" ++ [13; 10]) sample =
       (Normal tt, sample, [Device (updateBattery (Dec false 87 0))]).
Proof.
  split; [vm_compute; reflexivity|].
  etransitivity.
  - apply (battery_level_ignores_padding sample
             (js "valetudo/robot/BatteryStateAttribute/level") [32] (js "87") [13; 10]);
      vm_compute; reflexivity.
  - vm_compute; reflexivity.
Defined.

(** Decimal digits: code units 48 to 57. *)
Lemma digit_val_digit (c : N) :
  48 <= c <= 57 -> digit_val 10 c = Some (c - 48).
Proof.
  intros [H1 H2]. unfold digit_val.
  apply N.leb_le in H1 as L1. apply N.leb_le in H2 as L2. rewrite L1, L2. cbn [andb].
  assert (c - 48 < 10) as L by lia. apply N.ltb_lt in L. now rewrite L.
Qed.

Lemma digit_not_blank (c : N) : 48 <= c <= 57 -> isStrWhiteSpaceChar c = false.
Proof.
  intros [H1 H2]. unfold isStrWhiteSpaceChar.
  repeat match goal with
         | |- context [?a <=? ?b] =>
             let E := fresh in
             destruct (N.leb_spec a b) as [E|E]; try lia
         | |- context [?a =? ?b] =>
             let E := fresh in
             destruct (N.eqb_spec a b) as [E|E]; try lia
         end; reflexivity.
Qed.

Lemma trim_digits (s : jsstring) :
  Forall (fun c => 48 <= c <= 57) s -> trim s = s.
Proof.
  intros H. unfold trim.
  assert (K : forall t, Forall (fun c => 48 <= c <= 57) t -> trim_start t = t).
  { intros t Ht. destruct Ht as [|c t Hc _]; [reflexivity|].
    cbn [trim_start]. now rewrite digit_not_blank. }
  rewrite (K s H), K, rev_involutive; [reflexivity|].
  apply Forall_rev. exact H.
Qed.

Lemma read_digits_all (s : jsstring) (acc : N) (n : nat) :
  Forall (fun c => 48 <= c <= 57) s ->
  read_digits 10 s acc n =
    (fold_left (fun a c => a * 10 + (c - 48)) s acc, (n + List.length s)%nat, []).
Proof.
  intros H. revert acc n.
  induction H as [|c s Hc _ IH]; intros acc n; cbn [read_digits fold_left List.length].
  - now rewrite Nat.add_0_r.
  - rewrite (digit_val_digit c Hc), IH.
    replace (S n + List.length s)%nat with (n + S (List.length s))%nat by lia.
    reflexivity.
Qed.

(** A non-empty run of decimal digits converts to the integer it writes. *)
Lemma Number_digits (s : jsstring) :
  s <> [] -> Forall (fun c => 48 <= c <= 57) s ->
  Number s = Dec false (fold_left (fun a c => a * 10 + (c - 48)) s 0) 0.
Proof.
  intros Hne H. unfold Number, StringToNumber. rewrite (trim_digits s H).
  assert (U : unsigned_decimal false s =
              Dec false (fold_left (fun a c => a * 10 + (c - 48)) s 0) 0).
  { unfold unsigned_decimal.
    destruct (jsstring_dec s (js "Infinity")) as [->|_].
    { exfalso. clear Hne. inversion_clear H as [|? ? Hc _].
      destruct Hc as [_ Hc]. vm_compute in Hc. now apply Hc. }
    rewrite (read_digits_all s 0 0 H). cbn [Nat.add read_exponent].
    destruct s as [|c s]; [contradiction|]. reflexivity. }
  destruct s as [|c s]; [contradiction|].
  inversion H as [|? ? Hc Hs]; subst.
  destruct (N.eq_dec c 48) as [->|Hc48].
  - destruct s as [|d s]; [exact U|].
    inversion Hs as [|? ? Hd _]; subst.
    assert (E1 : (d =? 120) || (d =? 88) = false).
    { destruct (N.eqb_spec d 120), (N.eqb_spec d 88); try lia; reflexivity. }
    assert (E2 : (d =? 111) || (d =? 79) = false).
    { destruct (N.eqb_spec d 111), (N.eqb_spec d 79); try lia; reflexivity. }
    assert (E3 : (d =? 98) || (d =? 66) = false).
    { destruct (N.eqb_spec d 98), (N.eqb_spec d 66); try lia; reflexivity. }
    rewrite E1, E2, E3. exact U.
  - destruct c as [|q]; [lia|].
    let rec walk q :=
      first [ exact U | lia
            | destruct q as [q|q|]; [walk q | walk q | first [exact U | lia]] ] in
    walk q.
Qed.

Lemma numeral_digits (d : Decimal.uint) :
  Forall is_digit (js (NilEmpty.string_of_uint d)).
Proof.
  induction d; cbn [NilEmpty.string_of_uint];
    [constructor|..];
    change (js (String ?a ?r)) with (N_of_ascii a :: js r);
    (constructor; [vm_compute; split; discriminate|assumption]).
Qed.

Lemma numeral_value_acc (d : Decimal.uint) (acc : positive) :
  fold_left (fun a c => a * 10 + (c - 48)) (js (NilEmpty.string_of_uint d)) (Npos acc)
  = Npos (Pos.of_uint_acc d acc).
Proof.
  revert acc. induction d; intros acc; cbn [NilEmpty.string_of_uint];
    [reflexivity|..];
    change (js (String ?a ?r)) with (N_of_ascii a :: js r);
    cbn [fold_left Pos.of_uint_acc]; rewrite <- IHd; f_equal;
    match goal with
    | |- context [N_of_ascii ?a] =>
        let v := eval vm_compute in (N_of_ascii a) in
        change (N_of_ascii a) with v
    end; lia.
Qed.

Lemma numeral_value (d : Decimal.uint) :
  digits_value (js (NilEmpty.string_of_uint d)) = Pos.of_uint d.
Proof.
  unfold digits_value.
  induction d; cbn [NilEmpty.string_of_uint Pos.of_uint];
    [reflexivity|..];
    change (js (String ?a ?r)) with (N_of_ascii a :: js r);
    cbn [fold_left];
    first [ exact IHd | apply numeral_value_acc ].
Qed.

Lemma N_to_jsstring_spec (n : N) :
  N_to_jsstring n <> []
  /\ Forall is_digit (N_to_jsstring n)
  /\ digits_value (N_to_jsstring n) = n.
Proof.
  unfold N_to_jsstring.
  assert (E : NilZero.string_of_uint (N.to_uint n)
              = NilEmpty.string_of_uint (N.to_uint n)).
  { destruct n as [|q]; [reflexivity|]. cbn [N.to_uint].
    pose proof (DecimalPos.Unsigned.to_uint_nonnil q).
    destruct (Pos.to_uint q); [contradiction|reflexivity..]. }
  rewrite E. split; [|split].
  - destruct n as [|q]; [discriminate|]. cbn [N.to_uint].
    pose proof (DecimalPos.Unsigned.to_uint_nonnil q).
    destruct (Pos.to_uint q); [contradiction|discriminate..].
  - apply numeral_digits.
  - rewrite numeral_value. apply DecimalN.Unsigned.of_to.
Qed.

(** X18.  A battery-level payload made of decimal digits only, writing an
    integer of at most 2^53 (the range in which every integer is a binary64
    value, so that the number kept here is the one the code computes),
    updates the battery to that integer read in base ten, leading zeros
    included (no octal reading); in particular the decimal numeral of such
    an [n] updates the battery to [n]. *)
Theorem battery_level_decimal_payload (p : Platform) (topic s : jsstring) :
  endsWith topic (js "BatteryStateAttribute/level") = true ->
  (s <> [] -> Forall is_digit s -> digits_value s <= max_exact_integer ->
   onMqttMessage topic s p =
     (Normal tt, p, [Device (updateBattery (Dec false (digits_value s) 0))]))
  /\ (forall n, n <= max_exact_integer ->
      onMqttMessage topic (N_to_jsstring n) p =
        (Normal tt, p, [Device (updateBattery (Dec false n 0))])).
Proof.
  intros H.
  assert (K : forall t, t <> [] -> Forall is_digit t ->
              onMqttMessage topic t p =
                (Normal tt, p, [Device (updateBattery (Dec false (digits_value t) 0))])).
  { intros t Hne Hd. rewrite battery_level_unfold by assumption.
    rewrite (Number_digits t Hne Hd). reflexivity. }
  split; [intros Hne Hd _; exact (K s Hne Hd)|].
  intros n _. destruct (N_to_jsstring_spec n) as (Hne & Hd & Hv).
  rewrite (K _ Hne Hd), Hv. reflexivity.
Qed.

Lemma battery_level_decimal_payload_witness :
  endsWith (js "valetudo/robot/BatteryStateAttribute/level")
           (js "BatteryStateAttribute/level") = true
  /\ js "007" <> []
  /\ Forall is_digit (js "007")
  /\ digits_value (js "007") <= max_exact_integer
  /\ onMqttMessage (js "valetudo/robot/BatteryStateAttribute/level") (js "007") sample =
       (Normal tt, sample, [Device (updateBattery (Dec false 7 0))])
  /\ onMqttMessage (js "valetudo/robot/BatteryStateAttribute/level") (js "100") sample =
       (Normal tt, sample, [Device (updateBattery (Dec false 100 0))]).
Proof.
  split; [vm_compute; reflexivity|]. split; [discriminate|].
  assert (D : Forall is_digit (js "007")).
  { repeat constructor; vm_compute; discriminate. }
  assert (B : digits_value (js "007") <= max_exact_integer).
  { vm_compute. discriminate. }
  split; [exact D|]. split; [exact B|]. split.
  - exact (proj1 (battery_level_decimal_payload sample
                    (js "valetudo/robot/BatteryStateAttribute/level") (js "007")
                    ltac:(vm_compute; reflexivity))
                 ltac:(discriminate) D B).
  - exact (proj2 (battery_level_decimal_payload sample
                    (js "valetudo/robot/BatteryStateAttribute/level") (js "007")
                    ltac:(vm_compute; reflexivity))
                 100 ltac:(vm_compute; discriminate)).
Defined.

Lemma read_string_plain (c : N) (r acc : jsstring) :
  c <> 34 -> c <> 92 -> 32 <= c ->
  read_string (c :: r) acc = read_string r (c :: acc).
Proof.
  intros H1 H2 H3.
  assert (E : (c <? 32) = false) by (apply N.ltb_ge; exact H3).
  transitivity (if c <? 32 then None else read_string r (c :: acc));
    [|now rewrite E].
  clear E H3.
  destruct c as [|q]; [reflexivity|].
  let rec walk q :=
    first [ reflexivity | congruence
          | destruct q as [q|q|]; [walk q | walk q | first [reflexivity | congruence]] ] in
  walk q.
Qed.

Lemma read_string_unicode (a b c d : N) (r acc : jsstring) :
  read_string (92 :: 117 :: a :: b :: c :: d :: r) acc =
    match hex4 a b c d with
    | Some u => read_string r (u :: acc)
    | None => None
    end.
Proof. reflexivity. Qed.

Lemma digit_val_hex_digit (d : N) :
  d < 16 -> digit_val 16 (hex_digit d) = Some d.
Proof.
  intros H. destruct d as [|q]; [reflexivity|].
  do 4 (destruct q as [q|q|]; try reflexivity); lia.
Qed.

Lemma read_string_escape (c : N) (r acc : jsstring) :
  c < 65536 ->
  read_string (unicode_escape c ++ r) acc = read_string r (c :: acc).
Proof.
  intros Hc. unfold unicode_escape.
  change (js "\u") with [92; 117]. cbn [app].
  rewrite read_string_unicode. unfold hex4.
  rewrite !digit_val_hex_digit by (apply N.mod_lt; discriminate).
  do 2 f_equal.
  replace (c / 4096) with (c / 16 / 16 / 16)
    by (rewrite !N.Div0.div_div; reflexivity).
  replace (c / 256) with (c / 16 / 16)
    by (rewrite !N.Div0.div_div; reflexivity).
  zify. Z.to_euclidean_division_equations. lia.
Qed.

Lemma surrogate_bounds (c : N) :
  is_lead c = true \/ is_trail c = true -> 55296 <= c < 65536.
Proof.
  unfold is_lead, is_trail. intros [H|H];
    apply andb_true_iff in H as [H1 H2];
    apply N.leb_le in H1, H2; lia.
Qed.

(** A quoted string reads back as the string itself, whatever its code
    units. *)
Lemma read_string_quote (n : nat) :
  forall s acc rest,
    (List.length s <= n)%nat ->
    read_string (quote_units s ++ 34 :: rest) acc = Some (rev acc ++ s, rest).
Proof.
  induction n as [|n IH]; intros s acc rest Hl.
  { destruct s; [|cbn in Hl; lia]. cbn. now rewrite app_nil_r. }
  destruct s as [|c r].
  { cbn. now rewrite app_nil_r. }
  assert (Hr : (List.length r <= n)%nat) by (cbn in Hl; lia).
  assert (Done : forall x,
             read_string (quote_units r ++ 34 :: rest) (x :: acc)
             = Some (rev acc ++ x :: r, rest)).
  { intros x. rewrite (IH r (x :: acc) rest Hr). cbn [rev].
    now rewrite <- app_assoc. }
  cbn [quote_units].
  destruct (N.eqb_spec c 8) as [->|H8].
  { rewrite <- app_assoc. exact (Done 8). }
  destruct (N.eqb_spec c 9) as [->|H9].
  { rewrite <- app_assoc. exact (Done 9). }
  destruct (N.eqb_spec c 10) as [->|H10].
  { rewrite <- app_assoc. exact (Done 10). }
  destruct (N.eqb_spec c 12) as [->|H12].
  { rewrite <- app_assoc. exact (Done 12). }
  destruct (N.eqb_spec c 13) as [->|H13].
  { rewrite <- app_assoc. exact (Done 13). }
  destruct (N.eqb_spec c 34) as [->|H34].
  { rewrite <- app_assoc. exact (Done 34). }
  destruct (N.eqb_spec c 92) as [->|H92].
  { rewrite <- app_assoc. exact (Done 92). }
  destruct (N.ltb_spec c 32) as [Hlow|Hhigh].
  { rewrite <- app_assoc, read_string_escape by lia. apply Done. }
  destruct (is_lead c) eqn:Hlead.
  { pose proof (surrogate_bounds c (or_introl Hlead)) as Hb.
    destruct r as [|d r'].
    { rewrite read_string_escape by lia. cbn. reflexivity. }
    destruct (is_trail d) eqn:Htrail.
    - pose proof (surrogate_bounds d (or_intror Htrail)) as Hd.
      cbn [app].
      rewrite read_string_plain by lia.
      rewrite read_string_plain by lia.
      rewrite IH by (cbn in Hr; lia).
      cbn [rev]. now rewrite <- !app_assoc.
    - rewrite <- app_assoc, read_string_escape by lia. apply Done. }
  destruct (is_trail c) eqn:Htrail.
  { pose proof (surrogate_bounds c (or_intror Htrail)) as Hb.
    rewrite <- app_assoc, read_string_escape by lia. apply Done. }
  cbn [app]. rewrite read_string_plain by assumption. apply Done.
Qed.

Lemma JSON_parse_quote (s : jsstring) : JSON_parse (quote s) = Normal (JString s).
Proof.
  unfold JSON_parse, quote. cbn [app].
  set (text := 34 :: quote_units s ++ [34]).
  replace (2 * List.length text + 2)%nat
    with (S (S (2 * List.length text)))%nat by lia.
  subst text.
  change (parse_value (S ?f) (34 :: ?r))
    with (match read_string r [] with
          | Some (str, r') => Some (JString str, r')
          | None => None
          end).
  rewrite (read_string_quote (List.length s) s [] [] (le_n _)).
  reflexivity.
Qed.

Lemma parse_value_quoted (f : nat) (s rest : jsstring) :
  parse_value (S f) (quote s ++ rest) = Some (JString s, rest).
Proof.
  unfold quote. rewrite <- !app_assoc. cbn [app].
  change (parse_value (S f) (34 :: ?r))
    with (match read_string r [] with
          | Some (str, r') => Some (JString str, r')
          | None => None
          end).
  now rewrite (read_string_quote (List.length s) s [] rest (le_n _)).
Qed.

Lemma parse_elements_quoted (ids : list jsstring) :
  forall fuel acc tail,
    ids <> [] ->
    (List.length ids < fuel)%nat ->
    parse_elements fuel (join (js ",") (List.map quote ids) ++ 93 :: tail) acc
    = Some (JArray (rev acc ++ List.map JString ids), tail).
Proof.
  induction ids as [|x xs IH]; intros fuel acc tail Hne Hfuel; [contradiction|].
  destruct fuel as [|[|f]]; [cbn in Hfuel; lia..|].
  destruct xs as [|y ys].
  - cbn [List.map join].
    change (parse_elements (S (S f)) ?s ?a)
      with (match parse_value (S f) s with
            | Some (v, r) =>
                match skip_ws r with
                | 44 :: r' => parse_elements (S f) r' (v :: a)
                | 93 :: r' => Some (JArray (rev (v :: a)), r')
                | _ => None
                end
            | None => None
            end).
    rewrite parse_value_quoted. reflexivity.
  - change (join (js ",") (List.map quote (x :: y :: ys)))
      with (quote x ++ js "," ++ join (js ",") (List.map quote (y :: ys))).
    rewrite <- !app_assoc.
    change (parse_elements (S (S f)) ?s ?a)
      with (match parse_value (S f) s with
            | Some (v, r) =>
                match skip_ws r with
                | 44 :: r' => parse_elements (S f) r' (v :: a)
                | 93 :: r' => Some (JArray (rev (v :: a)), r')
                | _ => None
                end
            | None => None
            end).
    rewrite parse_value_quoted.
    change (js "," ++ ?r) with (44 :: r).
    change (skip_ws (44 :: ?r)) with (44 :: r). cbv iota.
    rewrite IH by (try discriminate; cbn in Hfuel |- *; lia).
    cbn [rev List.map]. now rewrite <- app_assoc.
Qed.

Lemma join_quoted_length (ids : list jsstring) :
  (List.length ids <= List.length (join (js ",") (List.map quote ids)))%nat.
Proof.
  induction ids as [|x [|y ys] IH].
  - cbn. lia.
  - cbn [List.map join List.length]. unfold quote. rewrite !length_app. cbn. lia.
  - change (join (js ",") (List.map quote (x :: y :: ys)))
      with (quote x ++ js "," ++ join (js ",") (List.map quote (y :: ys))).
    rewrite !length_app. cbn [List.length] in IH |- *.
    unfold quote at 1. rewrite !length_app. cbn [List.length]. lia.
Qed.

Lemma stringify_segment_ids (ids : list jsstring) :
  JSON_stringify (JObject [(js "segment_ids", JArray (List.map JString ids))])
  = js "{" ++ quote (js "segment_ids") ++ js ":" ++ js "["
    ++ join (js ",") (List.map quote ids) ++ js "]" ++ js "}".
Proof.
  transitivity (js "{" ++ (quote (js "segment_ids") ++ js ":"
                           ++ JSON_stringify (JArray (List.map JString ids)))
                ++ js "}"); [reflexivity|].
  cbn [JSON_stringify]. rewrite map_map.
  rewrite <- !app_assoc. reflexivity.
Qed.

Lemma JSON_parse_segment_ids (ids : list jsstring) :
  ids <> [] ->
  JSON_parse (JSON_stringify
                (JObject [(js "segment_ids", JArray (List.map JString ids))]))
  = Normal (JObject [(js "segment_ids", JArray (List.map JString ids))]).
Proof.
  intros Hne. rewrite stringify_segment_ids. unfold JSON_parse.
  set (body := join (js ",") (List.map quote ids)).
  set (text := js "{" ++ quote (js "segment_ids") ++ js ":" ++ js "["
               ++ body ++ js "]" ++ js "}").
  assert (Hlen : (List.length ids + 4 < 2 * List.length text + 2)%nat).
  { pose proof (join_quoted_length ids) as L. fold body in L.
    subst text. rewrite !length_app.
    change (List.length (js "{")) with 1%nat.
    change (List.length (js ":")) with 1%nat.
    change (List.length (js "[")) with 1%nat.
    lia. }
  destruct (2 * List.length text + 2)%nat as [|[|[|[|fuel]]]] eqn:Ef; try lia.
  assert (Hhead : exists first tail_ids,
             body ++ js "]" ++ js "}" = 34 :: first
             /\ tail_ids = body ++ 93 :: js "}").
  { subst body. destruct ids as [|x xs]; [contradiction|].
    destruct xs; cbn [List.map join]; unfold quote; cbn [app];
      eexists _, _; split; reflexivity. }
  destruct Hhead as (first & tail_ids & Hfirst & Htail).
  subst text.
  change (js "{" ++ quote (js "segment_ids") ++ js ":" ++ js "[" ++ ?r)
    with (123 :: 34 :: quote_units (js "segment_ids") ++ 34 :: 58 :: 91 :: r).
  rewrite Hfirst.
  change (parse_value (S (S (S (S fuel)))) (123 :: 34 :: ?r))
    with (parse_members (S (S (S fuel))) (34 :: r) []).
  change (parse_members (S (S (S fuel))) (34 :: ?r) [])
    with (match read_string r [] with
          | Some (k, r1) =>
              match skip_ws r1 with
              | 58 :: r2 =>
                  match parse_value (S (S fuel)) r2 with
                  | Some (v, r3) =>
                      match skip_ws r3 with
                      | 44 :: r4 => parse_members (S (S fuel)) r4 (obj_set [] k v)
                      | 125 :: r4 => Some (JObject (obj_set [] k v), r4)
                      | _ => None
                      end
                  | None => None
                  end
              | _ => None
              end
          | None => None
          end).
  rewrite (read_string_quote _ (js "segment_ids") [] _ (le_n _)).
  cbn [rev app].
  change (skip_ws (58 :: ?r)) with (58 :: r). cbv iota.
  change (parse_value (S (S fuel)) (91 :: 34 :: ?r))
    with (parse_elements (S fuel) (34 :: r) []).
  rewrite <- Hfirst.
  change (body ++ js "]" ++ js "}") with (body ++ 93 :: js "}").
  subst body.
  rewrite parse_elements_quoted by (try assumption; lia).
  reflexivity.
Qed.

(** X19.  What [cleanServiceAreas] publishes for a non-empty list of string
    ids is JSON text that parses back to the object [{segment_ids: ids}]
    with the same ids in the same order, whatever code units the ids
    contain (quotes, backslashes, control characters, lone surrogates). *)
Theorem published_area_list_reads_back (p : Platform) (ids : list jsstring) :
  ids <> [] ->
  exists text,
    cleanServiceAreas (Data (JArray (List.map JString ids))) p =
      (Normal tt, p,
       [Publish (topic_of p (js "MapSegmentationCapability/clean/set")) text;
        Device (updateRunMode Cleaning)])
    /\ JSON_parse text =
         Normal (JObject [(js "segment_ids", JArray (List.map JString ids))]).
Proof.
  intros Hne.
  exists (JSON_stringify (JObject [(js "segment_ids", JArray (List.map JString ids))])).
  split.
  - destruct ids; [contradiction|reflexivity].
  - now apply JSON_parse_segment_ids.
Qed.

Lemma published_area_list_reads_back_witness :
  [json_text "say 'hi'"; [92; 10; 55357]] <> []
  /\ exists text,
       cleanServiceAreas
         (Data (JArray (List.map JString [json_text "say 'hi'"; [92; 10; 55357]])))
         sample =
         (Normal tt, sample,
          [Publish (topic_of sample (js "MapSegmentationCapability/clean/set")) text;
           Device (updateRunMode Cleaning)])
       /\ JSON_parse text =
            Normal (JObject [(js "segment_ids",
                              JArray (List.map JString
                                        [json_text "say 'hi'"; [92; 10; 55357]]))]).
Proof.
  split; [discriminate|].
  apply (published_area_list_reads_back sample
           [json_text "say 'hi'"; [92; 10; 55357]]).
  discriminate.
Defined.

(* ------------------------------------------------------------------ *)
(** * Service areas derived from a parsed table *)

Lemma obj_set_keys {A} (props : list (jsstring * A)) (k : jsstring) (v : A) (k' : jsstring) :
  In k' (List.map fst (obj_set props k v)) -> k' = k \/ In k' (List.map fst props).
Proof.
  induction props as [|[k0 v0] r IH]; cbn [obj_set List.map fst In].
  - intros [<-|[]]. now left.
  - destruct (jsstring_dec k0 k) as [->|Hne]; cbn [List.map fst In].
    + intros [<-|H]; auto.
    + intros [<-|H]; auto. destruct (IH H); auto.
Qed.

Lemma obj_set_NoDup {A} (props : list (jsstring * A)) (k : jsstring) (v : A) :
  NoDup (List.map fst props) -> NoDup (List.map fst (obj_set props k v)).
Proof.
  induction props as [|[k0 v0] r IH]; cbn [obj_set List.map fst]; intros H.
  - constructor; [intros []|constructor].
  - inversion_clear H as [|? ? Hn Hr].
    destruct (jsstring_dec k0 k) as [->|Hne]; cbn [List.map fst].
    + now constructor.
    + constructor; [|auto].
      intros Hin. apply obj_set_keys in Hin as [E|Hin]; congruence.
Qed.

(** Follow the tests on one character [c] in hypothesis [H], closing with
    [fin] every branch it can. *)
Ltac walk_char H c fin :=
  destruct c as [|c]; [solve [fin]|];
  do 8 (try (destruct c as [c|c|]; try solve [fin])).

Lemma parse_elements_array (f : nat) :
  forall s acc j r, parse_elements f s acc = Some (j, r) -> exists l, j = JArray l.
Proof.
  induction f as [|f IH]; intros s acc j r H; [discriminate H|].
  cbn [parse_elements] in H.
  destruct (parse_value f s) as [[v r0]|]; [|discriminate H].
  destruct (skip_ws r0) as [|c r1]; [discriminate H|].
  walk_char H c
    ltac:(first [ discriminate H
                | exact (IH _ _ _ _ H)
                | injection H as <- _; eexists; reflexivity ]).
Qed.

Lemma parse_members_NoDup (f : nat) :
  forall s acc j r,
    NoDup (List.map fst acc) ->
    parse_members f s acc = Some (j, r) ->
    exists props, j = JObject props /\ NoDup (List.map fst props).
Proof.
  induction f as [|f IH]; intros s acc j r Hacc H; [discriminate H|].
  cbn [parse_members] in H.
  destruct (skip_ws s) as [|c r0]; [discriminate H|].
  walk_char H c ltac:(discriminate H).
  destruct (read_string r0 []) as [[k r1]|]; [|discriminate H].
  destruct (skip_ws r1) as [|c r2]; [discriminate H|].
  walk_char H c ltac:(discriminate H).
  destruct (parse_value f r2) as [[v r3]|]; [|discriminate H].
  destruct (skip_ws r3) as [|c r4]; [discriminate H|].
  walk_char H c
    ltac:(first [ discriminate H
                | exact (IH _ _ _ _ (obj_set_NoDup acc k v Hacc) H)
                | injection H as <- _; eexists; split;
                  [reflexivity|exact (obj_set_NoDup acc k v Hacc)] ]).
Qed.

Lemma parse_value_object_NoDup (f : nat) (s : jsstring)
      (props : list (jsstring * Json)) (r : jsstring) :
  parse_value f s = Some (JObject props, r) -> NoDup (List.map fst props).
Proof.
  intros H. destruct f as [|f]; [discriminate H|].
  cbn [parse_value] in H.
  destruct (skip_ws s) as [|c r0]; [discriminate H|].
  walk_char H c
    ltac:(first
            [ discriminate H
            | match type of H with
              | context [read_number ?x] =>
                  destruct (read_number x) as [[? ?]|]; discriminate H
              end
            | match type of H with
              | context [read_string ?x ?y] =>
                  destruct (read_string x y) as [[? ?]|]; discriminate H
              end
            | unfold read_literal in H;
              match type of H with
              | context [starts_with ?x ?y] =>
                  destruct (starts_with x y); discriminate H
              end ]).
  - (* an object *)
    destruct (skip_ws r0) as [|d r1].
    + apply parse_members_NoDup in H as (q & E & Hq); [|constructor].
      now injection E as <-.
    + walk_char H d
        ltac:(first [ discriminate H
                    | injection H as <- _; constructor
                    | apply parse_members_NoDup in H as (q & E & Hq); [|constructor];
                      injection E as <-; exact Hq ]).
  - (* an array *)
    exfalso.
    destruct (skip_ws r0) as [|d r1].
    + apply parse_elements_array in H as [l E]. discriminate E.
    + walk_char H d
        ltac:(first [ discriminate H
                    | apply parse_elements_array in H as [l E]; discriminate E ]).
Qed.

Lemma JSON_parse_object_NoDup (msg : jsstring) (props : list (jsstring * Json)) :
  JSON_parse msg = Normal (JObject props) -> NoDup (List.map fst props).
Proof.
  unfold JSON_parse. intros H.
  destruct (parse_value _ msg) as [[v r]|] eqn:E; [|discriminate H].
  destruct (skip_ws r); [|discriminate H].
  injection H as ->. eapply parse_value_object_NoDup. exact E.
Qed.

Lemma insert_by_index_perm {A} (i : N) (x : A) (l : list (N * A)) :
  Permutation (insert_by_index i x l) ((i, x) :: l).
Proof.
  induction l as [|[j y] r IH]; cbn [insert_by_index]; [reflexivity|].
  destruct (i <? j); [reflexivity|].
  rewrite IH. apply perm_swap.
Qed.

Lemma index_props_perm {A} (props : list (jsstring * A)) :
  Permutation
    (List.map snd (index_props props))
    (filter (fun kv => match array_index (fst kv) with
                       | Some _ => true
                       | None => false
                       end) props).
Proof.
  induction props as [|[k v] r IH]; cbn [index_props filter fst]; [reflexivity|].
  destruct (array_index k) as [i|]; [|exact IH].
  rewrite insert_by_index_perm. cbn [List.map snd]. now constructor.
Qed.

Lemma filter_split_perm {A} (f : A -> bool) (l : list A) :
  Permutation (filter f l ++ filter (fun x => negb (f x)) l) l.
Proof.
  induction l as [|x l IH]; cbn [filter]; [reflexivity|].
  destruct (f x); cbn [negb app].
  - now constructor.
  - rewrite <- Permutation_middle. now constructor.
Qed.

(** The entries of an object are its properties, each once. *)
Lemma own_entries_perm {A} (props : list (jsstring * A)) :
  Permutation (own_entries props) props.
Proof.
  unfold own_entries. rewrite index_props_perm.
  rewrite <- (filter_split_perm
                (fun kv => match array_index (fst kv) with
                           | Some _ => true
                           | None => false
                           end) props) at 3.
  apply Permutation_app_head.
  erewrite filter_ext; [reflexivity|].
  intros [k v]. cbn. now destruct (array_index k).
Qed.

Lemma insert_by_index_sorted {A} (i : N) (x : A) (l : list (N * A)) :
  StronglySorted (fun a b => fst a <= fst b) l ->
  StronglySorted (fun a b => fst a <= fst b) (insert_by_index i x l).
Proof.
  induction 1 as [|[j y] r Hr IH Hall]; cbn [insert_by_index].
  - repeat constructor.
  - destruct (N.ltb_spec i j) as [Hij|Hji].
    + constructor; [now constructor|].
      constructor; [cbn; lia|].
      eapply Forall_impl; [|exact Hall]. cbn. intros; lia.
    + constructor; [exact IH|].
      eapply Permutation_Forall; [symmetry; apply insert_by_index_perm|].
      constructor; [exact Hji|exact Hall].
Qed.

Lemma index_props_sorted {A} (props : list (jsstring * A)) :
  StronglySorted (fun a b => fst a <= fst b) (index_props props)
  /\ Forall (fun e => array_index (fst (snd e)) = Some (fst e)) (index_props props).
Proof.
  induction props as [|[k v] r [IHs IHi]]; cbn [index_props].
  - split; constructor.
  - destruct (array_index k) as [i|] eqn:E; [|now split].
    split; [now apply insert_by_index_sorted|].
    eapply Permutation_Forall; [symmetry; apply insert_by_index_perm|].
    now constructor.
Qed.

Lemma no_index_only (rest : list (jsstring * Json)) :
  Forall (fun kv => array_index (fst kv) = None) rest ->
  forallb (fun o : option N => match o with None => true | Some _ => false end)
          (List.map (fun kv => array_index (fst kv)) rest) = true.
Proof.
  induction 1 as [|kv rest Hk _ IH]; [reflexivity|].
  cbn [List.map forallb]. now rewrite Hk.
Qed.

Lemma no_index_ascending (rest : list (jsstring * Json)) :
  Forall (fun kv => array_index (fst kv) = None) rest ->
  indices_first_ascending (List.map (fun kv => array_index (fst kv)) rest) = true.
Proof.
  intros H. destruct H as [|kv rest Hk Hrest]; [reflexivity|].
  cbn [List.map indices_first_ascending]. rewrite Hk. now apply no_index_only.
Qed.

Lemma indices_first_ascending_app (l : list (N * (jsstring * Json)))
      (rest : list (jsstring * Json)) :
  StronglySorted (fun a b => fst a <= fst b) l ->
  Forall (fun e => array_index (fst (snd e)) = Some (fst e)) l ->
  Forall (fun kv => array_index (fst kv) = None) rest ->
  indices_first_ascending
    (area_indices (areas_of (List.map snd l ++ rest))) = true.
Proof.
  intros Hs Hi Hr. unfold area_indices, areas_of.
  rewrite !map_map. cbn [id].
  induction Hs as [|[i [k v]] r Hsr IH Hall].
  - cbn [List.map app]. now apply no_index_ascending.
  - inversion_clear Hi as [|? ? Hik Hir]. cbn [fst snd] in Hik.
    cbn [List.map app snd fst indices_first_ascending]. rewrite Hik.
    rewrite (IH Hir), andb_true_r.
    destruct r as [|[j [k' v']] r'].
    + cbn [List.map app]. destruct rest as [|[k' v'] rest']; [reflexivity|].
      inversion_clear Hr as [|? ? Hk' _]. cbn [List.map fst] in *. now rewrite Hk'.
    + inversion_clear Hir as [|? ? Hjk _]. cbn [fst snd] in Hjk.
      cbn [List.map app snd fst]. rewrite Hjk.
      inversion_clear Hall as [|? ? Hij _]. apply N.leb_le. exact Hij.
Qed.

Lemma areas_of_ids (entries : list (jsstring * Json)) :
  List.map id (areas_of entries) = List.map fst entries.
Proof.
  unfold areas_of. rewrite map_map. reflexivity.
Qed.

(** X20.  When a segments payload parses to an object and area derivation
    is on, the areas handed to the device are exactly the properties of the
    parsed table: as many areas as properties, every property as one area,
    and no two areas with the same id (a key repeated in the payload yields
    one area). *)
Theorem service_areas_match_table (p : Platform) (topic msg : jsstring)
        (props : list (jsstring * Json)) :
  endsWith topic (js "MapData/segments") = true ->
  JSON_parse msg = Normal (JObject props) ->
  derives_areas (cfg p) = true ->
  exists areas,
    snd (onMqttMessage topic msg p) = [Device (updateServiceAreas areas)]
    /\ NoDup (List.map id areas)
    /\ List.length areas = List.length props
    /\ (forall k v, In (mkArea k v) areas <-> In (k, v) props).
Proof.
  intros H Hparse Hd.
  rewrite (segments_message_unfold p topic msg H), Hparse, Hd.
  cbn [Object_entries snd].
  exists (areas_of (own_entries props)). split; [reflexivity|].
  pose proof (own_entries_perm props) as P.
  split; [|split].
  - rewrite areas_of_ids.
    eapply Permutation_NoDup.
    + apply Permutation_map. symmetry. exact P.
    + now apply JSON_parse_object_NoDup with (msg := msg).
  - unfold areas_of. rewrite length_map. now apply Permutation_length.
  - intros k v. unfold areas_of. rewrite in_map_iff. split.
    + intros ([k' v'] & E & Hin). injection E as -> ->.
      eapply Permutation_in; eassumption.
    + intros Hin. exists (k, v). split; [reflexivity|].
      eapply Permutation_in; [symmetry; exact P|exact Hin].
Qed.

Lemma service_areas_match_table_witness :
  endsWith segments_topic (js "MapData/segments") = true
  /\ JSON_parse (json_text "{'2':'Hall','1':'Kitchen','2':'Bath'}") =
       Normal (JObject [(js "2", JString (js "Bath")); (js "1", JString (js "Kitchen"))])
  /\ derives_areas (cfg sample) = true
  /\ exists areas,
       snd (onMqttMessage segments_topic
              (json_text "{'2':'Hall','1':'Kitchen','2':'Bath'}") sample) =
         [Device (updateServiceAreas areas)]
       /\ NoDup (List.map id areas)
       /\ List.length areas = 2%nat
       /\ (forall k v,
           In (mkArea k v) areas <->
           In (k, v) [(js "2", JString (js "Bath")); (js "1", JString (js "Kitchen"))]).
Proof.
  split; [vm_compute; reflexivity|]. split; [vm_compute; reflexivity|].
  split; [reflexivity|].
  apply (service_areas_match_table sample segments_topic
           (json_text "{'2':'Hall','1':'Kitchen','2':'Bath'}")
           [(js "2", JString (js "Bath")); (js "1", JString (js "Kitchen"))]);
    vm_compute; reflexivity.
Defined.

Lemma filter_index_part (l : list (N * (jsstring * Json))) :
  Forall (fun e => array_index (fst (snd e)) = Some (fst e)) l ->
  filter (fun a => match array_index (id a) with Some _ => false | None => true end)
         (areas_of (List.map snd l)) = [].
Proof.
  induction 1 as [|[i [k v]] l Hk _ IH]; [reflexivity|].
  cbn [List.map snd areas_of filter id fst] in *. now rewrite Hk.
Qed.

Lemma filter_other_part (props : list (jsstring * Json)) :
  filter (fun a => match array_index (id a) with Some _ => false | None => true end)
         (areas_of
            (filter (fun kv => match array_index (fst kv) with
                               | Some _ => false
                               | None => true
                               end) props))
  = areas_of
      (filter (fun kv => match array_index (fst kv) with
                         | Some _ => false
                         | None => true
                         end) props).
Proof.
  induction props as [|[k v] r IH]; [reflexivity|].
  cbn [filter fst]. destruct (array_index k) eqn:E; [exact IH|].
  cbn [areas_of List.map filter id fst snd]. rewrite E.
  f_equal. exact IH.
Qed.

(** X21.  The areas derived from a parsed table come in property order:
    first the ids that are array indices (canonical decimal numerals), in
    ascending numeric order whatever their order in the payload, then the
    other ids in the order of the payload. *)
Theorem service_areas_order (p : Platform) (topic msg : jsstring)
        (props : list (jsstring * Json)) :
  endsWith topic (js "MapData/segments") = true ->
  JSON_parse msg = Normal (JObject props) ->
  derives_areas (cfg p) = true ->
  exists areas,
    snd (onMqttMessage topic msg p) = [Device (updateServiceAreas areas)]
    /\ indices_first_ascending (area_indices areas) = true
    /\ filter (fun a => match array_index (id a) with Some _ => false | None => true end)
              areas
       = areas_of (filter (fun kv => match array_index (fst kv) with
                                     | Some _ => false
                                     | None => true
                                     end) props).
Proof.
  intros H Hparse Hd.
  rewrite (segments_message_unfold p topic msg H), Hparse, Hd.
  cbn [Object_entries snd].
  exists (areas_of (own_entries props)). split; [reflexivity|].
  destruct (index_props_sorted props) as [Hs Hi].
  unfold own_entries. split.
  - apply indices_first_ascending_app; try assumption.
    apply Forall_forall. intros [k v] Hin. apply filter_In in Hin as [_ Hk].
    cbn [fst] in *. now destruct (array_index k).
  - unfold areas_of at 1. rewrite map_app, filter_app.
    fold (areas_of (List.map snd (index_props props))).
    rewrite (filter_index_part _ Hi). cbn [app].
    apply filter_other_part.
Qed.

Lemma service_areas_order_witness :
  endsWith segments_topic (js "MapData/segments") = true
  /\ derives_areas (cfg sample) = true
  /\ exists areas,
       snd (onMqttMessage segments_topic
              (json_text "{'hall':'Hall','10':'Bath','9':'Kitchen','attic':'Attic'}")
              sample) = [Device (updateServiceAreas areas)]
       /\ indices_first_ascending (area_indices areas) = true
       /\ filter (fun a => match array_index (id a) with
                           | Some _ => false
                           | None => true
                           end) areas
          = [mkArea (js "hall") (JString (js "Hall"));
             mkArea (js "attic") (JString (js "Attic"))].
Proof.
  split; [vm_compute; reflexivity|]. split; [reflexivity|].
  apply (service_areas_order sample segments_topic
           (json_text "{'hall':'Hall','10':'Bath','9':'Kitchen','attic':'Attic'}")
           [(js "hall", JString (js "Hall")); (js "10", JString (js "Bath"));
            (js "9", JString (js "Kitchen")); (js "attic", JString (js "Attic"))]);
    vm_compute; reflexivity.
Defined.

(* ------------------------------------------------------------------ *)
(** * Redelivery, and what the handlers never send *)

(** X22.  Handling a message a second time right after the first (a broker
    redelivery, a retained message) leaves the fields as the first handling
    left them and repeats exactly the effects of the first. *)
Theorem redelivery_is_idempotent (p : Platform) (topic msg : jsstring) :
  let '(_, p1, tr) := onMqttMessage topic msg p in
  onMqttMessage topic msg p1 = (Normal tt, p1, tr).
Proof.
  destruct p as [c bs w sg].
  unfold onMqttMessage.
  destruct (endsWith topic (js "BatteryStateAttribute/level")).
  { destruct (isNaN (Number msg)); reflexivity. }
  destruct (endsWith topic (js "BatteryStateAttribute/status")).
  { destruct (streq msg (js "charging")); reflexivity. }
  destruct (endsWith topic (js "DockStatusStateAttribute/status")).
  { destruct (streq msg (js "cleaning")); [reflexivity|].
    destruct (streq msg (js "idle")); [reflexivity|].
    destruct (streq msg (js "pause")); [reflexivity|].
    destruct (streq msg (js "error")); reflexivity. }
  destruct (endsWith topic (js "StatusStateAttribute/error")).
  { destruct (truthy msg && negb (streq msg (js "{}")) && negb (streq msg (js "null")));
      reflexivity. }
  destruct (endsWith topic (js "AttachmentStateAttribute/watertank")).
  { reflexivity. }
  destruct (endsWith topic (js "FanSpeedControlCapability/preset")).
  { reflexivity. }
  destruct (endsWith topic (js "WaterUsageControlCapability/preset")).
  { reflexivity. }
  destruct (endsWith topic (js "MapData/segments")); [|reflexivity].
  unfold try_catch, bind, lift, modify, this, emit, ret.
  destruct (JSON_parse msg) as [v|e] eqn:Hparse.
  2:{ cbn; rewrite ?Hparse; reflexivity. }
  cbn [cfg set_segments segments base watertank].
  destruct (rvc_field mapServiceAreasFromSegments c) as [[|]|] eqn:Hopt;
    cbn [negb];
    try (destruct (Object_entries v) eqn:Hent);
    cbn; rewrite ?Hparse; cbn; rewrite ?Hopt; cbn; rewrite ?Hent; reflexivity.
Qed.

Lemma handle_device_calls (ev : Event) (p : Platform) :
  forallb handler_call (device_calls (snd (handle ev p))) = true.
Proof.
  destruct ev as [|topic msg|target| | | |mode|areaIds]; cbn [handle];
    try reflexivity.
  - destruct (message_shape p topic msg) as (b & v & tr & E & _ & Hi & _).
    rewrite E. cbn [snd]. clear E. unfold device_calls.
    induction tr as [|e tr IH]; [reflexivity|].
    cbn [forallb] in Hi. apply andb_true_iff in Hi as [He Htr].
    cbn [flat_map].
    rewrite forallb_app, (IH Htr), andb_true_r.
    destruct e as [| | | |[]|]; try discriminate He; reflexivity.
  - unfold onCleanModeChange.
    destruct (clean_mode_trace p mode) as (tr & -> & Hall & _).
    cbn [snd]. rewrite (clean_mode_no_device_call p tr Hall). reflexivity.
  - destruct areaIds as [|ids]; cbn [cleanServiceAreas]; [reflexivity|].
    destruct (negb (Array_isArray ids) || negb (0 <? Array_length ids)%nat);
      reflexivity.
Qed.

(** X23.  No handler ever tells the device that the run mode went back to
    Idle or that the clean mode changed: through any sequence of events a
    run-mode update is always to Cleaning (from [cleanServiceAreas]) and
    [updateCleanMode] is never called.  Only the constructor makes those
    two calls. *)
Theorem handlers_never_reset_modes (evs : list Event) (p : Platform) (c : DeviceCall) :
  In (Device c) (snd (run evs p)) ->
  match c with
  | updateCleanMode _ => False
  | updateRunMode m => m = Cleaning
  | _ => True
  end.
Proof.
  assert (K : forall tr, forallb handler_call (device_calls tr) = true ->
                         In (Device c) tr ->
                         match c with
                         | updateCleanMode _ => False
                         | updateRunMode m => m = Cleaning
                         | _ => True
                         end).
  { intros tr Hall Hin.
    assert (Hc : In c (device_calls tr)).
    { unfold device_calls. apply in_flat_map. exists (Device c). cbn. auto. }
    rewrite forallb_forall in Hall. specialize (Hall c Hc).
    destruct c as [| |[]| |]; try discriminate Hall; auto. }
  revert p. induction evs as [|ev evs IH]; intros p; cbn [run]; [intros []|].
  pose proof (handle_device_calls ev p) as Hev.
  destruct (handle ev p) as [[r p1] t1]. cbn [snd] in Hev.
  specialize (IH p1). destruct (run evs p1) as [p2 t2]. cbn [snd] in *.
  intros Hin. apply in_app_or in Hin as [Hin|Hin]; [now apply (K t1)|now apply IH].
Qed.

Lemma handlers_never_reset_modes_witness :
  In (Device (updateRunMode Cleaning))
     (snd (run [CleanServiceAreas (Data (JArray [JString (js "1")]));
                MqttMessage (js "valetudo/robot/DockStatusStateAttribute/status")
                            (js "idle");
                RunModeChange Idle]
               sample))
  /\ Cleaning = Cleaning.
Proof.
  assert (H : In (Device (updateRunMode Cleaning))
                 (snd (run [CleanServiceAreas (Data (JArray [JString (js "1")]));
                            MqttMessage
                              (js "valetudo/robot/DockStatusStateAttribute/status")
                              (js "idle");
                            RunModeChange Idle]
                           sample))).
  { vm_compute. auto. }
  split; [exact H|].
  exact (handlers_never_reset_modes _ sample (updateRunMode Cleaning) H).
Defined.

Lemma handle_operation_words (ev : Event) (p : Platform) :
  Forall (fun v => In v operation_words)
         (published_on p (js "BasicControlCapability/operation/set")
                       (snd (handle ev p))).
Proof.
  destruct ev as [|topic msg|target| | | |mode|areaIds]; cbn [handle].
  - replace (published_on p (js "BasicControlCapability/operation/set")
                          (snd (onMqttConnect p)))
      with (@nil jsstring) by reflexivity.
    constructor.
  - destruct (message_shape p topic msg) as (b & v & tr & E & _ & Hi & _).
    rewrite E. cbn [snd]. clear E. unfold published_on.
    induction tr as [|e tr IH]; [constructor|].
    cbn [forallb] in Hi. apply andb_true_iff in Hi as [He Htr].
    cbn [flat_map].
    destruct e; try discriminate He; cbn [app]; auto.
  - unfold onRunModeChange. rewrite publish_run. cbn [snd].
    rewrite published_on_same.
    destruct target;
      (constructor; [unfold operation_words; cbn [In]; auto 6|constructor]).
  - unfold onPause. rewrite publish_run. cbn [snd].
    rewrite published_on_same.
    constructor; [unfold operation_words; cbn [In]; auto 6|constructor].
  - unfold onResume. rewrite publish_run. cbn [snd].
    rewrite published_on_same.
    constructor; [unfold operation_words; cbn [In]; auto 6|constructor].
  - unfold onDock. rewrite publish_run. cbn [snd].
    rewrite published_on_same.
    constructor; [unfold operation_words; cbn [In]; auto 6|constructor].
  - unfold onCleanModeChange. destruct mode.
    + rewrite vacuum_unfold. cbn [snd].
      rewrite !published_on_preset_other by (vm_compute; reflexivity).
      rewrite published_on_other by (vm_compute; reflexivity). constructor.
    + rewrite mop_unfold. destruct (watertank p); cbn [snd]; [|constructor].
      rewrite <- (app_nil_r (preset p (js "WaterUsageControlCapability/preset/set") _)).
      rewrite !published_on_preset_other by (vm_compute; reflexivity). constructor.
  - destruct areaIds as [|ids]; cbn [cleanServiceAreas]; [constructor|].
    destruct (negb (Array_isArray ids) || negb (0 <? Array_length ids)%nat);
      [constructor|].
    unfold bind. rewrite publish_run. cbn [snd emit app].
    rewrite published_on_other by (vm_compute; reflexivity). constructor.
Qed.

(** X24.  Through any sequence of events, the basic-control topic carries
    only the words [START], [STOP], [PAUSE] and [HOME]: presets and area
    lists never end up on it. *)
Theorem basic_control_words_only (evs : list Event) (p : Platform) :
  Forall (fun v => In v operation_words)
         (published_on p (js "BasicControlCapability/operation/set")
                       (snd (run evs p))).
Proof.
  revert p. induction evs as [|ev evs IH]; intros p; cbn [run].
  - constructor.
  - pose proof (handle_operation_words ev p) as Hhead.
    destruct (handle_shape ev p) as (b & v & tr & E & _).
    rewrite E in Hhead |- *. cbn [snd] in Hhead.
    specialize (IH (mkPlatform (cfg p) (base p) b v)).
    rewrite (published_on_same_base _ p) in IH by reflexivity.
    destruct (run evs _) as [p2 t2]. cbn [snd] in *.
    rewrite published_on_app. apply Forall_app. split; assumption.
Qed.
